(** * The streaming query client of [ApiContext]

    A shallow embedding of [submitQuery] (the [ApiProvider] component) and of
    the platform pieces it runs on: JavaScript strings, the streaming UTF-8
    [TextDecoder], [String.prototype.split]/[trim], [JSON.parse], and React
    state setters.  Definitions come first, the properties follow. *)

From Stdlib Require Import List NArith ZArith Bool Ascii String Lia.
From Stdlib.Strings Require Import Byte.
From Stdlib Require Import DecimalString.
Import ListNotations.

Local Open Scope N_scope.

(* ================================================================== *)
(** ** JavaScript strings *)
(* ================================================================== *)

(** A JavaScript string is a sequence of UTF-16 code units. *)
Definition jsstring := list N.

(** [lit s] is the string whose code units are the characters of the
    (ASCII) literal [s]. *)
Definition lit (s : string) : jsstring :=
  map N_of_ascii (list_ascii_of_string s).

(** [wire s] is [lit s] with every apostrophe replaced by a quotation mark:
    wire lines are written with ['] where the transmitted text has the
    JSON quote character. *)
Definition wire (s : string) : jsstring :=
  map (fun c => if c =? 39 then 34 else c) (lit s).

(** The bytes of an ASCII text, as a transport chunk. *)
Definition bytes_of (s : jsstring) : list byte :=
  map (fun c => match Byte.of_N c with Some b => b | None => x00 end) s.

Fixpoint str_eqb (a b : jsstring) : bool :=
  match a, b with
  | [], [] => true
  | x :: a', y :: b' => (x =? y) && str_eqb a' b'
  | _, _ => false
  end.

Definition QUOTE : N := 34.
Definition NEWLINE : N := 10.

(** WhiteSpace and LineTerminator code units, the ones [trim] strips. *)
Definition is_space (c : N) : bool :=
  ((9 <=? c) && (c <=? 13)) || (c =? 32) || (c =? 160) || (c =? 5760)
  || ((8192 <=? c) && (c <=? 8202)) || (c =? 8232) || (c =? 8233)
  || (c =? 8239) || (c =? 8287) || (c =? 12288) || (c =? 65279).

Fixpoint trimStart (s : jsstring) : jsstring :=
  match s with
  | c :: r => if is_space c then trimStart r else s
  | [] => []
  end.

(** [s.trim()] *)
Definition trim (s : jsstring) : jsstring :=
  rev (trimStart (rev (trimStart s))).

(** Truthiness of a string: non-empty. *)
Definition nonempty (s : jsstring) : bool :=
  match s with [] => false | _ => true end.

(** [s.startsWith(c)] and [s.endsWith(c)] for a one-unit string [c]. *)
Definition startsWith (s : jsstring) (c : N) : bool :=
  match s with x :: _ => x =? c | [] => false end.

Definition endsWith (s : jsstring) (c : N) : bool :=
  match rev s with x :: _ => x =? c | [] => false end.

(** [s.split(sep)] for a one-unit separator: never empty. *)
Fixpoint split (sep : N) (s : jsstring) : list jsstring :=
  match s with
  | [] => [[]]
  | c :: r =>
      if c =? sep then [] :: split sep r
      else match split sep r with
           | h :: t => (c :: h) :: t
           | [] => [[c]]
           end
  end.

(** [lines.pop() || ''] : the last element, the empty string when the
    array is empty or its last element is empty. *)
Definition pop_or_empty (lines : list jsstring) : jsstring := last lines [].

(** The array left after [lines.pop()]. *)
Definition popped (lines : list jsstring) : list jsstring := removelast lines.

(** Decimal digits of a natural number, as [String(n)] prints an integer. *)
Definition decimal (n : N) : jsstring :=
  lit (NilZero.string_of_uint (N.to_uint n)).

(* ================================================================== *)
(** ** TextDecoder: the streaming UTF-8 decoder *)
(* ================================================================== *)

(** The WHATWG UTF-8 decoder, in replacement mode, with the byte order mark
    handling of [TextDecoder]'s serialization.  [decode(value, {stream:true})]
    never flushes, so the decoder is an automaton over the bytes it is fed. *)
Module TextDecoder.

Record t := mk {
  code_point : N;
  bytes_needed : N;
  bytes_seen : N;
  lower_boundary : N;
  upper_boundary : N;
  bom_seen : bool
}.

(** [new TextDecoder()] *)
Definition fresh : t := mk 0 0 0 128 191 false.

Definition reset (d : t) : t := mk 0 0 0 128 191 (bom_seen d).

(** A scalar value as UTF-16 code units. *)
Definition utf16 (c : N) : jsstring :=
  if c <? 65536 then [c]
  else [55296 + (c - 65536) / 1024; 56320 + (c - 65536) mod 1024].

(** Serialization of one decoded scalar value: the first one is dropped
    when it is U+FEFF. *)
Definition emit (d : t) (c : N) : t * jsstring :=
  if bom_seen d then (d, utf16 c)
  else (mk (code_point d) (bytes_needed d) (bytes_seen d)
           (lower_boundary d) (upper_boundary d) true,
        if c =? 65279 then [] else utf16 c).

Definition REPLACEMENT : N := 65533.

(** A byte read while no sequence is open. *)
Definition lead (d : t) (b : N) : t * jsstring :=
  if b <=? 127 then emit d b
  else if (194 <=? b) && (b <=? 223) then
    (mk (N.land b 31) 1 0 128 191 (bom_seen d), [])
  else if (224 <=? b) && (b <=? 239) then
    (mk (N.land b 15) 2 0
        (if b =? 224 then 160 else 128)
        (if b =? 237 then 159 else 191) (bom_seen d), [])
  else if (240 <=? b) && (b <=? 244) then
    (mk (N.land b 7) 3 0
        (if b =? 240 then 144 else 128)
        (if b =? 244 then 143 else 191) (bom_seen d), [])
  else emit d REPLACEMENT.

(** One byte through the decoder.  A byte outside the expected range
    closes the open sequence with U+FFFD and is read again as a lead. *)
Definition step (d : t) (byte : byte) : t * jsstring :=
  let b := Byte.to_N byte in
  if bytes_needed d =? 0 then lead d b
  else if (b <? lower_boundary d) || (upper_boundary d <? b) then
    let '(d1, o1) := emit (reset d) REPLACEMENT in
    let '(d2, o2) := lead d1 b in
    (d2, o1 ++ o2)
  else
    let c := N.lor (N.shiftl (code_point d) 6) (N.land b 63) in
    if bytes_seen d + 1 =? bytes_needed d then emit (reset d) c
    else (mk c (bytes_needed d) (bytes_seen d + 1) 128 191 (bom_seen d), []).

(** [decoder.decode(value, { stream: true })] *)
Fixpoint decode (d : t) (value : list byte) : t * jsstring :=
  match value with
  | [] => (d, [])
  | b :: rest =>
      let '(d1, o1) := step d b in
      let '(d2, o2) := decode d1 rest in
      (d2, o1 ++ o2)
  end.

End TextDecoder.

(* ================================================================== *)
(** ** The read loop: framing of the response body into lines *)
(* ================================================================== *)

Section ReadLoop.

Context {S : Type}.

(** The body of [for (const line of lines)], for one line. *)
Variable on_line : jsstring -> S -> S.

Definition for_lines (lines : list jsstring) (st : S) : S :=
  fold_left (fun acc line => on_line line acc) lines st.

(** [while (true) { const { value, done } = await reader.read(); ... }]
    over the chunks the reader delivers before it reports [done]. *)
Fixpoint read_loop (decoder : TextDecoder.t) (buffer : jsstring)
         (chunks : list (list byte)) (st : S)
  : TextDecoder.t * jsstring * S :=
  match chunks with
  | [] => (decoder, buffer, st)
  | value :: rest =>
      let '(decoder', text) := TextDecoder.decode decoder value in
      let buffer := buffer ++ text in
      let lines := split NEWLINE buffer in
      let buffer := pop_or_empty lines in
      let lines := popped lines in
      read_loop decoder' buffer rest (for_lines lines st)
  end.

End ReadLoop.

(** The lines the framer hands on: every complete line that is not blank,
    in order, then the unterminated rest when it is not blank. *)
Definition keep_line (line : jsstring) (acc : list jsstring) : list jsstring :=
  if negb (nonempty (trim line)) then acc else acc ++ [line].

Definition framed_lines (chunks : list (list byte)) : list jsstring :=
  let '(_, buffer, lines) :=
    read_loop keep_line TextDecoder.fresh [] chunks [] in
  if nonempty (trim buffer) then lines ++ [buffer] else lines.

(* ================================================================== *)
(** ** JavaScript values and JSON.parse *)
(* ================================================================== *)

(** The values [JSON.parse] produces, and [undefined] for a property that
    is absent.  A number is the exact decimal [m * 10^e], kept normalised
    ([m] not a multiple of ten, [e = 0] for zero); an object is its list
    of own properties, keys unique, in creation order. *)
#[warnings="-register-all"]
Inductive jsval :=
| JUndefined
| JNull
| JBool (b : bool)
| JNum (m e : Z)
| JStr (s : jsstring)
| JArr (items : list jsval)
| JObj (props : list (jsstring * jsval)).

(** An [Error] object: what [catch] handlers here read is its [message];
    [name] is what its string conversion starts with. *)
Record js_error := mkError { err_name : jsstring; err_message : jsstring }.

(** A TypeError from outside the code, as [fetch] or a read rejects with. *)
Definition TypeError (msg : string) : js_error := mkError (lit "TypeError") (lit msg).

(** The exceptions the engine raises by itself in this code:
    [JSON.parse(text)] on a text outside the JSON grammar; [base.name]
    where [base] is [null] or [undefined]; a call [callee(...)] where
    [callee] is not a function; the string conversion of an object that
    gives no primitive. *)
Inductive failure :=
| NotValidJSON (text : jsstring)
| PropertyOfNullish (base : jsval) (name : jsstring)
| NotAFunction (callee : jsstring)
| NotPrimitive.

(** ECMA-262 fixes the kind of error each failure raises and leaves the
    text of its message to the engine. *)
Class Engine := { wording : failure -> jsstring }.

Definition raise {engine : Engine} (f : failure) : js_error :=
  mkError (match f with
           | NotValidJSON _ => lit "SyntaxError"
           | _ => lit "TypeError"
           end)
          (wording f).

(** Outcome of a computation of the model: a result, a thrown exception,
    or [Beyond] where the input leaves the fragment modelled exactly (a
    number that binary64 would round, a property found on a prototype). *)
Inductive result (E A : Type) :=
| Ok (a : A)
| Throw (e : E)
| Beyond.
Arguments Ok {E A} a.
Arguments Throw {E A} e.
Arguments Beyond {E A}.

Definition res : Type -> Type := result js_error.

(** Inside [JSON.parse] a text is rejected without a message yet. *)
Definition parsed : Type -> Type := result unit.

Definition reject {A : Type} : parsed A := Throw tt.

Definition bind {E A B : Type} (r : result E A) (k : A -> result E B) : result E B :=
  match r with
  | Ok a => k a
  | Throw e => Throw e
  | Beyond => Beyond
  end.

Notation "x <- r ;; k" := (bind r (fun x => k))
  (at level 61, r at next level, right associativity).

(** *** Objects *)

Fixpoint obj_get (k : jsstring) (o : list (jsstring * jsval)) : option jsval :=
  match o with
  | [] => None
  | (k', v) :: r => if str_eqb k k' then Some v else obj_get k r
  end.

(** [o[k] = v] on own data properties: an existing key keeps its place. *)
Fixpoint obj_set (k : jsstring) (v : jsval) (o : list (jsstring * jsval))
  : list (jsstring * jsval) :=
  match o with
  | [] => [(k, v)]
  | (k', v') :: r => if str_eqb k k' then (k, v) :: r else (k', v') :: obj_set k v r
  end.

(** *** Numbers *)

Local Open Scope Z_scope.

(** Strip the trailing zeros of a mantissa; [fuel] bounds their number. *)
Fixpoint normalise (fuel : nat) (m e : Z) : Z * Z :=
  match fuel with
  | O => (m, e)
  | Datatypes.S fuel' =>
      if m =? 0 then (0, 0)
      else if m mod 10 =? 0 then normalise fuel' (m / 10) (e + 1)
      else (m, e)
  end.

(** The decimals on which the model and binary64 agree: at most fifteen
    significant digits, well inside the normal range. *)
Definition exact_number (m e : Z) : bool :=
  (m =? 0) || ((Z.abs m <? 10 ^ 15) && (-300 <=? e) && (e <=? 290)).

Definition num (fuel : nat) (m e : Z) : parsed jsval :=
  let '(m', e') := normalise fuel m e in
  if exact_number m' e' then Ok (JNum m' e') else Beyond.

(** An integer literal of the tests. *)
Definition JInt (z : Z) : jsval :=
  let '(m, e) := normalise 20 z 0 in JNum m e.

Local Close Scope Z_scope.

Definition is_digit (c : N) : bool := (48 <=? c) && (c <=? 57).

Fixpoint span_digits (s : jsstring) : jsstring * jsstring :=
  match s with
  | c :: r =>
      if is_digit c then let '(ds, rest) := span_digits r in (c :: ds, rest)
      else ([], s)
  | [] => ([], [])
  end.

Definition digits_value (ds : jsstring) : Z :=
  fold_left (fun acc d => (10 * acc + Z.of_N (d - 48))%Z) ds 0%Z.

(** The JSON number grammar on a complete lexeme: an optional minus, an
    integer part (a single zero, or digits not starting with zero), an
    optional fraction (a point and at least one digit), an optional
    exponent (e or E, an optional sign, at least one digit). *)
Definition read_number (s : jsstring) : parsed jsval :=
  let '(negative, s1) :=
    match s with 45 :: r => (true, r) | _ => (false, s) end in
  let '(int_part, s2) := span_digits s1 in
  let '(frac_part, s3) :=
    match s2 with
    | 46 :: r => let '(f, rest) := span_digits r in (Some f, rest)
    | _ => (None, s2)
    end in
  let '(exp_part, s4) :=
    match s3 with
    | c :: r =>
        if (c =? 101) || (c =? 69) then
          let '(minus, r') :=
            match r with
            | 45 :: r' => (true, r')
            | 43 :: r' => (false, r')
            | _ => (false, r)
            end in
          let '(ds, rest) := span_digits r' in (Some (minus, ds), rest)
        else (None, s3)
    | [] => (None, s3)
    end in
  let int_ok :=
    match int_part with
    | [] => false
    | 48 :: _ :: _ => false
    | _ => true
    end in
  let frac_ok := match frac_part with Some [] => false | _ => true end in
  let exp_ok := match exp_part with Some (_, []) => false | _ => true end in
  if int_ok && frac_ok && exp_ok && negb (nonempty s4) then
    let frac := match frac_part with Some f => f | None => [] end in
    let mant := digits_value (int_part ++ frac) in
    let expo :=
      match exp_part with
      | Some (true, ds) => Z.opp (digits_value ds)
      | Some (false, ds) => digits_value ds
      | None => 0%Z
      end in
    num (List.length (int_part ++ frac))
        (if negative then Z.opp mant else mant)
        (expo - Z.of_nat (List.length frac))%Z
  else reject.

(** *** Lexical analysis *)

Inductive token :=
| TLBrace | TRBrace | TLBracket | TRBracket | TColon | TComma
| TAtom (v : jsval)
| TString (s : jsstring).

(** What the lexer is in the middle of; accumulators are reversed. *)
Inductive lex_mode :=
| LIdle
| LString (acc : jsstring)
| LEscape (acc : jsstring)
| LUnicode (acc : jsstring) (count : N) (code : N)
| LNumber (acc : jsstring)
| LWord (acc : jsstring).

Definition is_json_space (c : N) : bool :=
  (c =? 32) || (c =? 9) || (c =? 10) || (c =? 13).

Definition is_lower (c : N) : bool := (97 <=? c) && (c <=? 122).

Definition is_number_char (c : N) : bool :=
  is_digit c || (c =? 43) || (c =? 45) || (c =? 46) || (c =? 101) || (c =? 69).

Definition hex_value (c : N) : option N :=
  if is_digit c then Some (c - 48)
  else if (97 <=? c) && (c <=? 102) then Some (c - 87)
  else if (65 <=? c) && (c <=? 70) then Some (c - 55)
  else None.

Definition read_word (s : jsstring) : parsed jsval :=
  if str_eqb s (lit "true") then Ok (JBool true)
  else if str_eqb s (lit "false") then Ok (JBool false)
  else if str_eqb s (lit "null") then Ok JNull
  else reject.

Definition lex_idle (c : N) : parsed (lex_mode * list token) :=
  if is_json_space c then Ok (LIdle, [])
  else if c =? 123 then Ok (LIdle, [TLBrace])
  else if c =? 125 then Ok (LIdle, [TRBrace])
  else if c =? 91 then Ok (LIdle, [TLBracket])
  else if c =? 93 then Ok (LIdle, [TRBracket])
  else if c =? 58 then Ok (LIdle, [TColon])
  else if c =? 44 then Ok (LIdle, [TComma])
  else if c =? QUOTE then Ok (LString [], [])
  else if is_digit c || (c =? 45) then Ok (LNumber [c], [])
  else if is_lower c then Ok (LWord [c], [])
  else reject.

(** A number or word lexeme ends at the first unit that cannot continue
    it; that unit is then read from the idle mode. *)
Definition lex_step (m : lex_mode) (c : N) : parsed (lex_mode * list token) :=
  match m with
  | LIdle => lex_idle c
  | LString acc =>
      if c =? QUOTE then Ok (LIdle, [TString (rev acc)])
      else if c =? 92 then Ok (LEscape acc, [])
      else if c <? 32 then reject
      else Ok (LString (c :: acc), [])
  | LEscape acc =>
      if (c =? QUOTE) || (c =? 92) || (c =? 47) then Ok (LString (c :: acc), [])
      else if c =? 98 then Ok (LString (8 :: acc), [])
      else if c =? 102 then Ok (LString (12 :: acc), [])
      else if c =? 110 then Ok (LString (10 :: acc), [])
      else if c =? 114 then Ok (LString (13 :: acc), [])
      else if c =? 116 then Ok (LString (9 :: acc), [])
      else if c =? 117 then Ok (LUnicode acc 0 0, [])
      else reject
  | LUnicode acc count code =>
      match hex_value c with
      | Some h =>
          if count =? 3 then Ok (LString (code * 16 + h :: acc), [])
          else Ok (LUnicode acc (count + 1) (code * 16 + h), [])
      | None => reject
      end
  | LNumber acc =>
      if is_number_char c then Ok (LNumber (c :: acc), [])
      else
        v <- read_number (rev acc) ;;
        r <- lex_idle c ;;
        Ok (fst r, TAtom v :: snd r)
  | LWord acc =>
      if is_lower c then Ok (LWord (c :: acc), [])
      else
        v <- read_word (rev acc) ;;
        r <- lex_idle c ;;
        Ok (fst r, TAtom v :: snd r)
  end.

Definition lex_end (m : lex_mode) : parsed (list token) :=
  match m with
  | LIdle => Ok []
  | LNumber acc => v <- read_number (rev acc) ;; Ok [TAtom v]
  | LWord acc => v <- read_word (rev acc) ;; Ok [TAtom v]
  | LString _ | LEscape _ | LUnicode _ _ _ => reject
  end.

Fixpoint lex (m : lex_mode) (text : jsstring) : parsed (list token) :=
  match text with
  | [] => lex_end m
  | c :: rest =>
      r <- lex_step m c ;;
      ts <- lex (fst r) rest ;;
      Ok (snd r ++ ts)
  end.

(** *** Syntactic analysis: a pushdown automaton over the tokens *)

(** A container under construction: the elements read so far (reversed),
    or the properties created so far and the key awaiting its value. *)
Inductive frame :=
| FArray (items : list jsval)
| FObject (props : list (jsstring * jsval)) (key : option jsstring).

Inductive expect :=
| EValue
| EValueOrClose
| EKeyOrClose
| EKey
| EColon
| EAfter
| EEnd (v : jsval).

(** A completed value goes to the innermost open container. *)
Definition deliver (v : jsval) (stack : list frame) : option (expect * list frame) :=
  match stack with
  | [] => Some (EEnd v, [])
  | FArray items :: st => Some (EAfter, FArray (v :: items) :: st)
  | FObject props (Some k) :: st => Some (EAfter, FObject (obj_set k v props) None :: st)
  | FObject _ None :: _ => None
  end.

Definition close_array (stack : list frame) : option (expect * list frame) :=
  match stack with
  | FArray items :: st => deliver (JArr (rev items)) st
  | _ => None
  end.

Definition close_object (stack : list frame) : option (expect * list frame) :=
  match stack with
  | FObject props None :: st => deliver (JObj props) st
  | _ => None
  end.

Definition open_key (k : jsstring) (stack : list frame) : option (expect * list frame) :=
  match stack with
  | FObject props None :: st => Some (EColon, FObject props (Some k) :: st)
  | _ => None
  end.

Definition begin_value (t : token) (stack : list frame) : option (expect * list frame) :=
  match t with
  | TAtom v => deliver v stack
  | TString s => deliver (JStr s) stack
  | TLBracket => Some (EValueOrClose, FArray [] :: stack)
  | TLBrace => Some (EKeyOrClose, FObject [] None :: stack)
  | _ => None
  end.

Definition parse_step (e : expect) (stack : list frame) (t : token)
  : option (expect * list frame) :=
  match e with
  | EValue => begin_value t stack
  | EValueOrClose =>
      match t with
      | TRBracket => close_array stack
      | _ => begin_value t stack
      end
  | EKeyOrClose =>
      match t with
      | TString k => open_key k stack
      | TRBrace => close_object stack
      | _ => None
      end
  | EKey =>
      match t with
      | TString k => open_key k stack
      | _ => None
      end
  | EColon =>
      match t with
      | TColon => Some (EValue, stack)
      | _ => None
      end
  | EAfter =>
      match t with
      | TComma =>
          match stack with
          | FArray _ :: _ => Some (EValue, stack)
          | FObject _ None :: _ => Some (EKey, stack)
          | _ => None
          end
      | TRBracket => close_array stack
      | TRBrace => close_object stack
      | _ => None
      end
  | EEnd _ => None
  end.

Fixpoint parse_tokens (e : expect) (stack : list frame) (ts : list token)
  : parsed jsval :=
  match ts with
  | [] =>
      match e with
      | EEnd v => Ok v
      | _ => reject
      end
  | t :: rest =>
      match parse_step e stack t with
      | Some (e', stack') => parse_tokens e' stack' rest
      | None => reject
      end
  end.

(** The value of a text of the JSON grammar. *)
Definition json_value (text : jsstring) : parsed jsval :=
  ts <- lex LIdle text ;;
  parse_tokens EValue [] ts.

(** [JSON.parse(text)] for a string [text]. *)
Definition JSON_parse {engine : Engine} (text : jsstring) : res jsval :=
  match json_value text with
  | Ok v => Ok v
  | Throw _ => Throw (raise (NotValidJSON text))
  | Beyond => Beyond
  end.

(** *** Conversions and operators *)

(** ToBoolean *)
Definition truthy (v : jsval) : bool :=
  match v with
  | JUndefined | JNull => false
  | JBool b => b
  | JNum m _ => negb (m =? 0)%Z
  | JStr s => nonempty s
  | JArr _ | JObj _ => true
  end.

Definition nullish (v : jsval) : bool :=
  match v with
  | JUndefined | JNull => true
  | _ => false
  end.

(** [a || b] *)
Definition js_or (a b : jsval) : jsval := if truthy a then a else b.

(** [a ?? b] *)
Definition js_coalesce (a b : jsval) : jsval := if nullish a then b else a.

(** [v === 'k'] for a string literal. *)
Definition is_string (v : jsval) (k : jsstring) : bool :=
  match v with
  | JStr s => str_eqb s k
  | _ => false
  end.

(** [v.k] on a value that is neither [null] nor [undefined], for a name
    [k] that no built-in prototype defines (every name [submitQuery] reads
    is such): the own property of an object, [undefined] otherwise. *)
Definition prop (v : jsval) (k : jsstring) : jsval :=
  match v with
  | JObj o => match obj_get k o with Some x => x | None => JUndefined end
  | _ => JUndefined
  end.

(** [v.k] in general: reading a property of [null] or [undefined] throws. *)
Definition get {engine : Engine} (v : jsval) (k : string) : res jsval :=
  if nullish v then Throw (raise (PropertyOfNullish v (lit k)))
  else Ok (prop v (lit k)).

Definition zeros (n : Z) : jsstring := repeat 48 (Z.to_nat n).

(** Number::toString, radix ten, on an exact decimal. *)
Definition number_to_string (m e : Z) : jsstring :=
  if (m =? 0)%Z then lit "0"
  else
    let digits := decimal (Z.to_N (Z.abs m)) in
    let k := Z.of_nat (List.length digits) in
    let n := (k + e)%Z in
    let sign := if (m <? 0)%Z then lit "-" else [] in
    sign ++
    (if (k <=? n)%Z && (n <=? 21)%Z then digits ++ zeros (n - k)
     else if (0 <? n)%Z && (n <=? 21)%Z then
       firstn (Z.to_nat n) digits ++ lit "." ++ skipn (Z.to_nat n) digits
     else if (-6 <? n)%Z && (n <=? 0)%Z then
       lit "0." ++ zeros (- n) ++ digits
     else
       (match digits with
        | [d] => [d]
        | d :: ds => d :: lit "." ++ ds
        | [] => []
        end)
       ++ lit "e" ++ (if (0 <=? n - 1)%Z then lit "+" else lit "-")
       ++ decimal (Z.to_N (Z.abs (n - 1))))%Z.

(** ToString.  An array is its elements joined by commas, [null] and
    [undefined] as nothing.  An object from [JSON.parse] converts through
    [Object.prototype.toString], unless it has an own [toString]
    property: that one is not callable, [valueOf] does not give a
    primitive either, and the conversion throws. *)
Fixpoint ToString {engine : Engine} (v : jsval) : res jsstring :=
  match v with
  | JUndefined => Ok (lit "undefined")
  | JNull => Ok (lit "null")
  | JBool true => Ok (lit "true")
  | JBool false => Ok (lit "false")
  | JNum m e => Ok (number_to_string m e)
  | JStr s => Ok s
  | JArr items =>
      (fix join (l : list jsval) : res jsstring :=
         match l with
         | [] => Ok []
         | x :: r =>
             first <- match x with
                      | JUndefined | JNull => Ok []
                      | _ => ToString x
                      end ;;
             match r with
             | [] => Ok first
             | _ => others <- join r ;; Ok (first ++ 44 :: others)
             end
         end) items
  | JObj o =>
      match obj_get (lit "toString") o with
      | Some _ => Throw (raise NotPrimitive)
      | None => Ok (lit "[object Object]")
      end
  end.

(** QuoteJSONString: [JSON.stringify(s)] for a string [s]. *)
Definition hex_digit (n : N) : N := if n <? 10 then 48 + n else 87 + n.

Definition unicode_escape (c : N) : jsstring :=
  lit "\u" ++ [hex_digit (c / 4096); hex_digit ((c / 256) mod 16);
               hex_digit ((c / 16) mod 16); hex_digit (c mod 16)].

Definition is_lead_surrogate (c : N) : bool := (55296 <=? c) && (c <=? 56319).
Definition is_trail_surrogate (c : N) : bool := (56320 <=? c) && (c <=? 57343).

Fixpoint quote_units (s : jsstring) : jsstring :=
  match s with
  | [] => []
  | c :: r =>
      if c =? 8 then lit "\b" ++ quote_units r
      else if c =? 9 then lit "\t" ++ quote_units r
      else if c =? 10 then lit "\n" ++ quote_units r
      else if c =? 12 then lit "\f" ++ quote_units r
      else if c =? 13 then lit "\r" ++ quote_units r
      else if c =? QUOTE then 92 :: QUOTE :: quote_units r
      else if c =? 92 then 92 :: 92 :: quote_units r
      else if c <? 32 then unicode_escape c ++ quote_units r
      else if is_lead_surrogate c then
        match r with
        | c2 :: r2 =>
            if is_trail_surrogate c2 then c :: c2 :: quote_units r2
            else unicode_escape c ++ quote_units r
        | [] => unicode_escape c
        end
      else if is_trail_surrogate c then unicode_escape c ++ quote_units r
      else c :: quote_units r
  end.

Definition JSON_stringify_string (s : jsstring) : jsstring :=
  QUOTE :: quote_units s ++ [QUOTE].

(* ================================================================== *)
(** ** React state of [ApiProvider] *)
(* ================================================================== *)

(** The object held in [currentQuery].  [submitQuery] never writes another
    key; a key the object lacks reads [JUndefined]. *)
Record QueryResult := mkQuery {
  question : jsval;
  documents : jsval;
  answer : jsval;
  structured_answer : jsval;
  streamError : jsval;
  requestedK : jsval;
  effectiveK : jsval
}.

(** The state cells [submitQuery] writes; [None] is a [null] query. *)
Record Store := mkStore {
  isLoading : bool;
  error : jsval;
  currentQuery : option QueryResult
}.

(** A state updater runs when React renders, outside every [try] of
    [submitQuery]: one that throws takes the component tree down
    ([Crashed]), after which setters have no effect. *)
Inductive Session :=
| Live (s : Store)
| Crashed (e : js_error)
| Unmodelled.

Definition setIsLoading (b : bool) (ss : Session) : Session :=
  match ss with
  | Live s => Live (mkStore b (error s) (currentQuery s))
  | _ => ss
  end.

Definition setError (v : jsval) (ss : Session) : Session :=
  match ss with
  | Live s => Live (mkStore (isLoading s) v (currentQuery s))
  | _ => ss
  end.

(** [setCurrentQuery(prev => ...)] *)
Definition setCurrentQuery
           (updater : option QueryResult -> res (option QueryResult))
           (ss : Session) : Session :=
  match ss with
  | Live s =>
      match updater (currentQuery s) with
      | Ok q => Live (mkStore (isLoading s) (error s) q)
      | Throw e => Crashed e
      | Beyond => Unmodelled
      end
  | _ => ss
  end.

(** [{...prev}] : spreading [null] gives an object without keys. *)
Definition spread (prev : option QueryResult) : QueryResult :=
  match prev with
  | Some q => q
  | None => mkQuery JUndefined JUndefined JUndefined JUndefined
                    JUndefined JUndefined JUndefined
  end.

(** [prev?.field] *)
Definition optional (field : QueryResult -> jsval) (prev : option QueryResult) : jsval :=
  match prev with
  | Some q => field q
  | None => JUndefined
  end.

(** The object passed to the first [setCurrentQuery] of a query. *)
Definition initial_query (q : jsval) : QueryResult :=
  mkQuery q (JArr []) JNull JNull JNull JNull JNull.

(* ================================================================== *)
(** ** The updaters of [submitQuery] *)
(* ================================================================== *)

(** [prev => ({ ...prev, streamError: msg })] *)
Definition with_streamError (msg : jsval) (prev : option QueryResult)
  : res (option QueryResult) :=
  let p := spread prev in
  Ok (Some (mkQuery (question p) (documents p) (answer p) (structured_answer p)
                    msg (requestedK p) (effectiveK p))).

(** [data.requested_k ?? prev?.requestedK ?? null] *)
Definition next_k (data : jsval) (key : string) (field : QueryResult -> jsval)
           (prev : option QueryResult) : jsval :=
  js_coalesce (js_coalesce (prop data (lit key)) (optional field prev)) JNull.

(** [case 'documents'] *)
Definition merge_documents (data : jsval) (prev : option QueryResult)
  : res (option QueryResult) :=
  let p := spread prev in
  Ok (Some (mkQuery (question p) (prop data (lit "data")) (answer p)
                    (structured_answer p) (streamError p)
                    (next_k data "requested_k" requestedK prev)
                    (next_k data "effective_k" effectiveK prev))).

(** [owner.method(...)] for [forEach] and [map]: these are the array
    methods only on an array; on any other value JSON can give, reading
    the method or calling it throws. *)
Definition as_array {engine : Engine} (owner method : string) (v : jsval)
  : res (list jsval) :=
  match v with
  | JArr items => Ok items
  | JUndefined | JNull => Throw (raise (PropertyOfNullish v (lit method)))
  | _ => Throw (raise (NotAFunction (lit owner ++ lit "." ++ lit method)))
  end.

(** The names [highlightMap], a plain object, inherits from
    [Object.prototype]. *)
Definition object_prototype_names : list jsstring :=
  map lit ["constructor"; "__defineGetter__"; "__defineSetter__";
           "hasOwnProperty"; "__lookupGetter__"; "__lookupSetter__";
           "isPrototypeOf"; "propertyIsEnumerable"; "toString"; "valueOf";
           "__proto__"; "toLocaleString"]%string.

Definition inherited (k : jsstring) : bool :=
  existsb (str_eqb k) object_prototype_names.

(** [data.data.forEach(doc => { highlightMap[doc.content] = doc.highlights || []; })]
    Assigning to [__proto__] changes the prototype instead of creating a
    property: beyond the model. *)
Fixpoint fill_highlightMap {engine : Engine}
           (docs : list jsval) (highlightMap : list (jsstring * jsval))
  : res (list (jsstring * jsval)) :=
  match docs with
  | [] => Ok highlightMap
  | doc :: rest =>
      content <- get doc "content" ;;
      highlights <- get doc "highlights" ;;
      key <- ToString content ;;
      if str_eqb key (lit "__proto__") then Beyond
      else fill_highlightMap rest
             (obj_set key (js_or highlights (JArr [])) highlightMap)
  end.

(** [highlightMap[key]] : an own property, else what [Object.prototype]
    has under that name (beyond the model), else [undefined]. *)
Definition lookup_highlights (highlightMap : list (jsstring * jsval)) (key : jsstring)
  : res jsval :=
  match obj_get key highlightMap with
  | Some v => Ok v
  | None => if inherited key then Beyond else Ok JUndefined
  end.

Definition indexed (items : list jsval) : list (jsstring * jsval) :=
  combine (map (fun i => decimal (N.of_nat i)) (seq 0 (List.length items))) items.

(** The own enumerable properties [{...doc}] copies. *)
Definition own_properties (doc : jsval) : list (jsstring * jsval) :=
  match doc with
  | JObj o => o
  | JArr items => indexed items
  | JStr s => indexed (map (fun c => JStr [c]) s)
  | _ => []
  end.

(** [prev.documents.map(doc => ({ ...doc, highlights: highlightMap[doc.content] || [] }))] *)
Fixpoint attach_highlights {engine : Engine}
           (highlightMap : list (jsstring * jsval)) (docs : list jsval)
  : res (list jsval) :=
  match docs with
  | [] => Ok []
  | doc :: rest =>
      content <- get doc "content" ;;
      key <- ToString content ;;
      found <- lookup_highlights highlightMap key ;;
      let updated :=
        JObj (obj_set (lit "highlights") (js_or found (JArr [])) (own_properties doc)) in
      rest' <- attach_highlights highlightMap rest ;;
      Ok (updated :: rest')
  end.

(** [case 'highlights'] *)
Definition merge_highlights {engine : Engine} (data : jsval) (prev : option QueryResult)
  : res (option QueryResult) :=
  entries <- as_array "data.data" "forEach" (prop data (lit "data")) ;;
  highlightMap <- fill_highlightMap entries [] ;;
  match prev with
  | None => Throw (raise (PropertyOfNullish JNull (lit "documents")))
  | Some p =>
      docs <- as_array "prev.documents" "map" (documents p) ;;
      updatedDocs <- attach_highlights highlightMap docs ;;
      Ok (Some (mkQuery (question p) (JArr updatedDocs) (answer p)
                        (structured_answer p) (streamError p)
                        (next_k data "requested_k" requestedK prev)
                        (next_k data "effective_k" effectiveK prev)))
  end.

(** [case 'answer'] *)
Definition merge_answer {engine : Engine} (data : jsval) (prev : option QueryResult)
  : res (option QueryResult) :=
  let p := spread prev in
  a <- get (prop data (lit "data")) "answer" ;;
  s <- get (prop data (lit "data")) "structured_answer" ;;
  Ok (Some (mkQuery (question p) (documents p) a s (streamError p)
                    (requestedK p) (effectiveK p))).

(* ================================================================== *)
(** ** Line processing *)
(* ================================================================== *)

(** The two nested [try] blocks around [JSON.parse]: a line that does not
    parse and is wrapped in quotes is parsed again, and the result of that
    parse is parsed in turn; otherwise the first exception is rethrown. *)
Definition decode {engine : Engine} (line : jsstring) : res jsval :=
  match JSON_parse line with
  | Ok data => Ok data
  | Throw e =>
      if startsWith line QUOTE && endsWith line QUOTE then
        unescaped <- JSON_parse line ;;
        text <- ToString unescaped ;;
        JSON_parse text
      else Throw e
  | Beyond => Beyond
  end.

(** [Error.prototype.toString] *)
Definition error_to_string (e : js_error) : jsstring :=
  if negb (nonempty (err_name e)) then err_message e
  else if negb (nonempty (err_message e)) then err_name e
  else err_name e ++ lit ": " ++ err_message e.

(** [${parseError?.message || parseError}] *)
Definition describe (e : js_error) : jsstring :=
  if nonempty (err_message e) then err_message e else error_to_string e.

(** [setError(msg); setCurrentQuery(prev => ({ ...prev, streamError: msg }))] *)
Definition record_error (msg : jsval) (ss : Session) : Session :=
  setCurrentQuery (with_streamError msg) (setError msg ss).

Definition parseMsg (parseError : js_error) : jsstring :=
  lit "stream_parse_error: " ++ describe parseError.

Definition finalParseMsg (parseError : js_error) : jsstring :=
  lit "stream_parse_error(final): " ++ describe parseError.

(** The rest of the inner [try] once a line is decoded: the [error] check,
    then the [switch] on [data.type].  The only throw, reading [error] of
    [null], comes before any state is written. *)
Definition handle_event {engine : Engine} (data : jsval) (ss : Session) : res Session :=
  err <- get data "error" ;;
  if truthy err then Ok (setIsLoading false (record_error err ss))
  else
    let type := prop data (lit "type") in
    if is_string type (lit "documents") then
      Ok (setCurrentQuery (merge_documents data) ss)
    else if is_string type (lit "highlights") then
      Ok (setCurrentQuery (merge_highlights data) ss)
    else if is_string type (lit "answer") then
      let ss' := setCurrentQuery (merge_answer data) ss in
      Ok (if truthy (prop data (lit "done")) then setIsLoading false ss' else ss')
    else Ok ss.

(** One turn of [for (const line of lines)]. *)
Definition process_line {engine : Engine} (line : jsstring) (ss : Session) : Session :=
  if negb (nonempty (trim line)) then ss
  else
    match (data <- decode line ;; handle_event data ss) with
    | Ok ss' => ss'
    | Throw parseError => record_error (JStr (parseMsg parseError)) ss
    | Beyond => match ss with Crashed _ => ss | _ => Unmodelled end
    end.

Definition process_lines {engine : Engine}
           (lines : list jsstring) (ss : Session) : Session :=
  for_lines process_line lines ss.

(** The [try] of the final flush, after decoding. *)
Definition handle_final {engine : Engine} (data : jsval) (ss : Session) : res Session :=
  type <- get data "type" ;;
  let err := prop data (lit "error") in
  let ss1 :=
    if is_string type (lit "error") || truthy err then
      let finalMsg := js_or err (JStr (lit "Unknown streaming error")) in
      setIsLoading false (record_error finalMsg ss)
    else ss in
  Ok (if is_string type (lit "answer") && truthy (prop data (lit "done"))
      then setIsLoading false ss1 else ss1).

(** [if (buffer.trim()) { ... }] after the read loop. *)
Definition process_final {engine : Engine}
           (buffer : jsstring) (ss : Session) : Session :=
  if nonempty (trim buffer) then
    match (data <- decode buffer ;; handle_final data ss) with
    | Ok ss' => ss'
    | Throw parseError => record_error (JStr (finalParseMsg parseError)) ss
    | Beyond => match ss with Crashed _ => ss | _ => Unmodelled end
    end
  else ss.

(* ================================================================== *)
(** ** submitQuery *)
(* ================================================================== *)

(** The request handed to [fetch]; [body_value] is the object given to
    [JSON.stringify]. *)
Record Request := mkRequest {
  url : jsstring;
  method : jsstring;
  headers : list (jsstring * jsstring);
  body_value : jsval
}.

(** What [fetch] resolves to: the status line, and the body as the
    chunks its reader delivers, followed by [done] or by a rejected
    read.  [None] is a response without body. *)
Record Response := mkResponse {
  status : N;
  statusText : jsstring;
  body : option (list (list byte) * option js_error)
}.

(** [response.ok] *)
Definition ok (r : Response) : bool := (200 <=? status r) && (status r <=? 299).

(** The values the callback closes over. *)
Record Closure := mkClosure {
  isResourcesLoaded : jsval;
  numDocs : jsval;
  closed_currentQuery : option QueryResult
}.

Record Outcome := mkOutcome {
  returned : option QueryResult;
  session : Session;
  requests : list Request
}.

Definition query_request (question numDocs : jsval) : Request :=
  mkRequest (lit "/api/query/stream") (lit "POST")
            [(lit "Content-Type", lit "application/json");
             (lit "Cache-Control", lit "no-cache");
             (lit "X-Accel-Buffering", lit "no")]
            (JObj [(lit "question", question); (lit "num_docs", numDocs)]).

Definition status_message (r : Response) : jsstring :=
  lit "Server responded with " ++ decimal (status r) ++ lit ": " ++ statusText r.

(** The [try] block from the response on: the session it leaves and the
    exception it throws, if any. *)
Definition consume {engine : Engine}
           (response : Response) (ss : Session) : Session * option js_error :=
  if negb (ok response) then
    let msg := status_message response in
    (setCurrentQuery (with_streamError (JStr msg)) ss,
     Some (mkError (lit "Error") msg))
  else
    match body response with
    | None => (ss, Some (raise (PropertyOfNullish JNull (lit "getReader"))))
    | Some (chunks, failure) =>
        let '(_, buffer, ss1) :=
          read_loop process_line TextDecoder.fresh [] chunks ss in
        match failure with
        | Some e => (ss1, Some e)
        | None => (process_final buffer ss1, None)
        end
    end.

(** [setIsLoading(true); setError(null); setCurrentQuery({ question, ... })] *)
Definition begin_query (question : jsval) (ss : Session) : Session :=
  let ss := setIsLoading true ss in
  let ss := setError JNull ss in
  setCurrentQuery (fun _ => Ok (Some (initial_query question))) ss.

Definition NOT_LOADED : jsstring :=
  lit "Resources not loaded. Please wait for the system to initialize.".

Definition submitQuery {engine : Engine}
           (env : Closure) (fetch : Request -> js_error + Response)
           (question : jsval) (ss : Session) : Outcome :=
  if negb (truthy (isResourcesLoaded env)) then
    mkOutcome None (setError (JStr NOT_LOADED) ss) []
  else
    let ss := begin_query question ss in
    let request := query_request question (numDocs env) in
    let '(ss, thrown) :=
      match fetch request with
      | inl err => (ss, Some err)
      | inr response => consume response ss
      end in
    match thrown with
    | None =>
        mkOutcome (closed_currentQuery env) (setIsLoading false ss) [request]
    | Some err =>
        mkOutcome None
                  (setIsLoading false (setError (JStr (err_message err)) ss))
                  [request]
    end.

(* ================================================================== *)
(** ** Wire lines and responses of the scenarios *)
(* ================================================================== *)

(** The engine the scenarios run on.  Its TypeErrors are worded as V8
    words them; a text that is not JSON gets the message V8 has for a text
    that ends where a value is due, which is how the malformed lines of
    the scenarios fail. *)
#[export] Instance scenario_engine : Engine := {|
  wording f :=
    match f with
    | NotValidJSON _ => lit "Unexpected end of JSON input"
    | PropertyOfNullish base name =>
        lit "Cannot read properties of "
        ++ (match base with JNull => lit "null" | _ => lit "undefined" end)
        ++ lit " (reading '" ++ name ++ lit "')"
    | NotAFunction callee => callee ++ lit " is not a function"
    | NotPrimitive => lit "Cannot convert object to primitive value"
    end
|}.

Definition line_documents : jsstring :=
  wire "{'type':'documents','data':[{'content':'A'},{'content':'B'}],'requested_k':5,'effective_k':3}".

Definition line_highlights : jsstring :=
  wire "{'type':'highlights','data':[{'content':'A','highlights':['x']}]}".

Definition line_answer : jsstring :=
  wire "{'type':'answer','data':{'answer':'done','structured_answer':{'v':1}},'done':true}".

Definition line_timeout : jsstring := wire "{'error':'timeout'}".

Definition line_answer_with_k : jsstring :=
  wire "{'type':'answer','data':{'answer':'a','structured_answer':null},'requested_k':7,'effective_k':4}".

Definition line_answer_empty_error : jsstring :=
  wire "{'type':'answer','data':{'answer':'a','structured_answer':null},'error':''}".

Definition line_first_answer : jsstring :=
  wire "{'type':'answer','data':{'answer':'first','structured_answer':1}}".

Definition line_second_answer : jsstring :=
  wire "{'type':'answer','data':{'answer':'second','structured_answer':2}}".

Definition line_malformed : jsstring := wire "{'type':'documents','data':[".

(** A line followed by its terminator. *)
Definition terminated (line : jsstring) : jsstring := line ++ [NEWLINE].

(** A response with status 200 whose body arrives as one chunk. *)
Definition response_of (text : jsstring) : Response :=
  mkResponse 200 (lit "OK") (Some ([bytes_of text], None)).

(** A 503 response; its body is never read. *)
Definition response_503 : Response :=
  mkResponse 503 (lit "Service Unavailable")
             (Some ([bytes_of (terminated line_documents)], None)).

Definition not_loaded : Closure :=
  mkClosure (JBool false) (JInt 20) None.

Definition loaded : Closure := mkClosure (JBool true) (JInt 20) None.

Definition idle : Store := mkStore false JNull None.

(* ================================================================== *)
(** ** Observations used to state the properties *)
(* ================================================================== *)

(** [{ ...q, streamError: msg }] *)
Definition set_streamError (msg : jsval) (q : QueryResult) : QueryResult :=
  mkQuery (question q) (documents q) (answer q) (structured_answer q)
          msg (requestedK q) (effectiveK q).

(** The event a line carries into the [switch]: the line is not blank, it
    decodes, and the [error] check lets the decoded value through. *)
Definition event_of {engine : Engine} (line : jsstring) : option jsval :=
  if nonempty (trim line) then
    match decode line with
    | Ok data =>
        match get data "error" with
        | Ok err => if truthy err then None else Some data
        | _ => None
        end
    | _ => None
    end
  else None.

Definition has_type (data : jsval) (name : string) : bool :=
  is_string (prop data (lit "type")) (lit name).

(** The event is one whose handler computes [requestedK]/[effectiveK]. *)
Definition merges_k (data : jsval) : bool :=
  has_type data "documents" || has_type data "highlights".

(** The line does not bring a value for [requested_k] (or
    [effective_k]) to a handler that reads it. *)
Definition omits {engine : Engine} (key : string) (line : jsstring) : Prop :=
  forall data, event_of line = Some data -> merges_k data = true ->
               nullish (prop data (lit key)) = true.

(** The query object of a live session. *)
Definition query_of (ss : Session) : option QueryResult :=
  match ss with
  | Live s => currentQuery s
  | _ => None
  end.

(** A query is in progress: the session holds a query object, as it does
    from [begin_query] on. *)
Definition querying (ss : Session) : Prop :=
  match ss with
  | Live s => currentQuery s <> None
  | _ => True
  end.

(** An updater that neither reads nor writes [streamError]. *)
Definition streamError_blind
           (U : option QueryResult -> res (option QueryResult)) : Prop :=
  forall m p,
    U (Some (set_streamError m p)) = (r <- U (Some p) ;; with_streamError m r).

(** An updater that gives an object whenever it returns. *)
Definition returns_object
           (U : option QueryResult -> res (option QueryResult)) : Prop :=
  forall prev r, U prev = Ok r -> r <> None.

(** Text of code units below 128. *)
Definition ascii_text (text : jsstring) : Prop := Forall (fun c => c < 128) text.

(** What one line can do to the query object of a live session. *)
Inductive effect {engine : Engine} (line : jsstring) (q q' : QueryResult) : Prop :=
| effect_none :
    (forall data, event_of line = Some data ->
       has_type data "documents" = false /\
       has_type data "highlights" = false /\
       has_type data "answer" = false) ->
    q' = q -> effect line q q'
| effect_error (msg : jsval) :
    event_of line = None ->
    q' = set_streamError msg q -> effect line q q'
| effect_documents (data : jsval) :
    event_of line = Some data -> has_type data "documents" = true ->
    q' = mkQuery (question q) (prop data (lit "data")) (answer q)
                 (structured_answer q) (streamError q)
                 (next_k data "requested_k" requestedK (Some q))
                 (next_k data "effective_k" effectiveK (Some q)) ->
    effect line q q'
| effect_highlights (data : jsval) (updatedDocs : list jsval) :
    event_of line = Some data -> has_type data "highlights" = true ->
    q' = mkQuery (question q) (JArr updatedDocs) (answer q)
                 (structured_answer q) (streamError q)
                 (next_k data "requested_k" requestedK (Some q))
                 (next_k data "effective_k" effectiveK (Some q)) ->
    effect line q q'
| effect_answer (data : jsval) :
    event_of line = Some data -> has_type data "answer" = true ->
    has_type data "documents" = false -> has_type data "highlights" = false ->
    q' = mkQuery (question q) (documents q)
                 (prop (prop data (lit "data")) (lit "answer"))
                 (prop (prop data (lit "data")) (lit "structured_answer"))
                 (streamError q) (requestedK q) (effectiveK q) ->
    effect line q q'.

(* ================================================================== *)
(** ** The other callbacks of [ApiProvider] *)
(* ================================================================== *)

(** What an axios call rejects with: the [message] of the error and, when
    the server answered, the [data] of [err.response]. *)
Record AxiosError := mkAxiosError {
  message : jsstring;
  response_data : option jsval
}.

(** An exception thrown inside the [try], as the [catch] sees it: an
    error without [response]. *)
Definition thrown (e : js_error) : AxiosError :=
  mkAxiosError (err_message e) None.

(** [err.response?.data?.detail || err.message] *)
Definition errorMessage (err : AxiosError) : jsval :=
  js_or (match response_data err with
         | Some data => if nullish data then JUndefined else prop data (lit "detail")
         | None => JUndefined
         end)
        (JStr (message err)).

Module Provider.

(** The five state cells of the component: [isLoading], [error] and
    [currentQuery] in [cells], then [isResourcesLoaded] and [numDocs]. *)
Record t := mk {
  cells : Session;
  isResourcesLoaded : jsval;
  numDocs : jsval
}.

(** The [useState] initial values. *)
Definition initial : t :=
  mk (Live (mkStore false JNull None)) (JBool false) (JInt 20).

Definition on_cells (f : Session -> Session) (st : t) : t :=
  mk (f (cells st)) (isResourcesLoaded st) (numDocs st).

Definition setIsResourcesLoaded (v : jsval) (st : t) : t :=
  match cells st with
  | Live _ => mk (cells st) v (numDocs st)
  | _ => st
  end.

Definition setNumDocs (v : jsval) (st : t) : t :=
  match cells st with
  | Live _ => mk (cells st) (isResourcesLoaded st) v
  | _ => st
  end.

(** The [catch] and [finally] shared by [refreshStatus] and
    [loadResources]. *)
Definition failed (err : AxiosError) (st : t) : t :=
  on_cells (setError (errorMessage err)) st.

(** [refreshStatus]; [axios_get] is what [axios.get(url)] settles to:
    the error it rejects with, or [response.data]. *)
Definition refreshStatus {engine : Engine}
           (axios_get : jsstring -> AxiosError + jsval) (st : t) : t :=
  let st := on_cells (setIsLoading true) st in
  let st := on_cells (setError JNull) st in
  let st :=
    match axios_get (lit "/api/status") with
    | inr data =>
        match get data "resources_loaded" with
        | Ok v => setIsResourcesLoaded v st
        | Throw e => failed (thrown e) st
        | Beyond => on_cells (fun _ => Unmodelled) st
        end
    | inl err => failed err st
    end in
  on_cells (setIsLoading false) st.

(** [apiKey ? { api_key: apiKey } : {}], with the parameter's default. *)
Definition load_payload (apiKey : jsval) : jsval :=
  let apiKey := match apiKey with JUndefined => JNull | _ => apiKey end in
  if truthy apiKey then JObj [(lit "api_key", apiKey)] else JObj [].

(** [loadResources]: the value returned and the state left. *)
Definition loadResources {engine : Engine}
           (axios_post : jsstring -> jsval -> AxiosError + jsval)
           (apiKey : jsval) (st : t) : jsval * t :=
  let st := on_cells (setIsLoading true) st in
  let st := on_cells (setError JNull) st in
  let '(result, st) :=
    match axios_post (lit "/api/load-resources") (load_payload apiKey) with
    | inr data =>
        match get data "success" with
        | Ok success =>
            let st := setIsResourcesLoaded success st in
            let st :=
              if negb (truthy success)
              then on_cells (setError (prop data (lit "message"))) st
              else st in
            (data, st)
        | Throw e => (JNull, failed (thrown e) st)
        | Beyond => (JNull, on_cells (fun _ => Unmodelled) st)
        end
    | inl err => (JNull, failed err st)
    end in
  (result, on_cells (setIsLoading false) st).

(** [updateNumDocs] *)
Definition updateNumDocs (num : jsval) (st : t) : t := setNumDocs num st.

(** [resetQuery] *)
Definition resetQuery (st : t) : t :=
  on_cells (setCurrentQuery (fun _ => Ok None)) st.

(** The [submitQuery] of a render: [useCallback] rebuilds it when
    [isResourcesLoaded] or [numDocs] changes, so it sees their current
    values, and the [currentQuery] of the render that built it. *)
Definition callback (rendered : option QueryResult) (st : t) : Closure :=
  mkClosure (isResourcesLoaded st) (numDocs st) rendered.

(** A call of that [submitQuery]: its outcome and the state left. *)
Definition submit {engine : Engine} (rendered : option QueryResult)
           (fetch : Request -> js_error + Response) (question : jsval) (st : t)
  : Outcome * t :=
  let out := submitQuery (callback rendered st) fetch question (cells st) in
  (out, mk (session out) (isResourcesLoaded st) (numDocs st)).

End Provider.

(* ================================================================== *)
(** ** More observations *)
(* ================================================================== *)

Definition is_object (v : jsval) : bool :=
  match v with JObj _ => true | _ => false end.

(** The key under which [highlightMap] files an entry or looks a document
    up: [ToString(doc.content)]. *)
Definition highlight_key {engine : Engine} (doc : jsval) : res jsstring :=
  content <- get doc "content" ;; ToString content.

(** The values that count as false in a condition, among those
    [JSON.parse] gives and [undefined]. *)
Inductive falsy : jsval -> Prop :=
| falsy_undefined : falsy JUndefined
| falsy_null : falsy JNull
| falsy_false : falsy (JBool false)
| falsy_zero (e : Z) : falsy (JNum 0 e)
| falsy_empty : falsy (JStr []).

(** The same object without its [error] property. *)
Definition without_error (data : jsval) : jsval :=
  match data with
  | JObj o => JObj (filter (fun kv => negb (str_eqb (fst kv) (lit "error"))) o)
  | _ => data
  end.

Definition line_answer_done_with_error : jsstring :=
  wire "{'type':'answer','data':{'answer':'a','structured_answer':null},'done':true,'error':'timeout'}".

Definition line_answer_without_error : jsstring :=
  wire "{'type':'answer','data':{'answer':'a','structured_answer':null}}".

(** A line the loop skips: nothing but white space. *)
Definition blank (line : jsstring) : bool := negb (nonempty (trim line)).

(** What one line or the final flush may do to a store that holds a
    query: the question stays; the surfaced error and the streamError
    are left alone or set to one same truthy value; loading is left alone
    or cleared. *)
Definition advance (s s' : Store) : Prop :=
  exists q q',
    currentQuery s = Some q /\ currentQuery s' = Some q' /\
    question q' = question q /\
    ((error s' = error s /\ streamError q' = streamError q) \/
     (exists m, truthy m = true /\ error s' = m /\ streamError q' = m)) /\
    (isLoading s' = isLoading s \/ isLoading s' = false).

(** The surfaced error and the streamError agree, on nothing or on a
    truthy value. *)
Definition errors_agree (s : Store) : Prop :=
  exists q, currentQuery s = Some q /\ error s = streamError q /\
            (error s = JNull \/ truthy (error s) = true).

(** A line as the wire contract has them: ASCII, without line terminator. *)
Definition plain (line : jsstring) : Prop :=
  ascii_text line /\ ~ In NEWLINE line.

Definition plainb (line : jsstring) : bool :=
  forallb (fun c => (c <? 128) && negb (c =? NEWLINE)) line.

(** The text of a body: terminated lines, then an unterminated rest. *)
Definition joined (lines : list jsstring) (rest : jsstring) : jsstring :=
  List.concat (map terminated lines) ++ rest.

(** The same response with its body delivered in one chunk. *)
Definition in_one_chunk (r : Response) : Response :=
  match body r with
  | Some (chunks, failure) =>
      mkResponse (status r) (statusText r) (Some ([List.concat chunks], failure))
  | None => r
  end.

(** The [try] of [submitQuery] reached its [return]: a response came, its
    status was ok, it had a body and every read succeeded. *)
Definition completed (settled : js_error + Response) : bool :=
  match settled with
  | inr r => ok r && match body r with Some (_, None) => true | _ => false end
  | inl _ => false
  end.

(** The last entry of a highlights event filed under a key. *)
Fixpoint last_entry {engine : Engine}
           (key : jsstring) (entries : list jsval) : option jsval :=
  match entries with
  | [] => None
  | entry :: rest =>
      match last_entry key rest with
      | Some found => Some found
      | None =>
          match highlight_key entry with
          | Ok k => if str_eqb key k then Some entry else None
          | _ => None
          end
      end
  end.

(** The highlights a document with key [key] is given by an event with
    these entries. *)
Definition highlights_for {engine : Engine}
           (key : jsstring) (entries : list jsval) : jsval :=
  js_or (match last_entry key entries with
         | Some entry => prop entry (lit "highlights")
         | None => JUndefined
         end) (JArr []).

(** A line the loop passes over without a trace: blank, or a decoded
    value that has no truthy error and none of the three types. *)
Definition passed_over {engine : Engine} (line : jsstring) : bool :=
  blank line ||
  match event_of line with
  | Some data =>
      negb (has_type data "documents" || has_type data "highlights"
            || has_type data "answer")
  | None => false
  end.

(* ================================================================== *)
(** * Properties *)
(* ================================================================== *)

(** ** Framing *)

Lemma decode_app (b1 b2 : list byte) (d : TextDecoder.t) :
  TextDecoder.decode d (b1 ++ b2) =
  let '(d1, o1) := TextDecoder.decode d b1 in
  let '(d2, o2) := TextDecoder.decode d1 b2 in
  (d2, o1 ++ o2).
Proof.
  revert d; induction b1 as [|b b1 IH]; intros d; simpl.
  - destruct (TextDecoder.decode d b2); reflexivity.
  - destruct (TextDecoder.step d b) as [d1 o1].
    rewrite IH.
    destruct (TextDecoder.decode d1 b1) as [d2 o2].
    destruct (TextDecoder.decode d2 b2) as [d3 o3].
    now rewrite app_assoc.
Qed.

Lemma split_nonempty (sep : N) (s : jsstring) : split sep s <> [].
Proof.
  destruct s as [|c r]; simpl; [discriminate|].
  destruct (c =? sep); [discriminate|].
  destruct (split sep r); discriminate.
Qed.

(** Splitting a concatenation: the complete segments of the first part
    are final, its last segment is continued by the second part. *)
Lemma split_app (sep : N) (a b : jsstring) :
  split sep (a ++ b) =
  popped (split sep a) ++ split sep (pop_or_empty (split sep a) ++ b).
Proof.
  unfold popped, pop_or_empty.
  induction a as [|c a IH]; simpl; [reflexivity|].
  destruct (c =? sep) eqn:E.
  - pose proof (split_nonempty sep a) as Hne.
    destruct (split sep a) as [|h t] eqn:Ha; [contradiction|].
    rewrite IH. reflexivity.
  - pose proof (split_nonempty sep a) as Hne.
    rewrite IH.
    destruct (split sep a) as [|h t] eqn:Ha; [contradiction|].
    destruct t as [|h' t'].
    + simpl. rewrite E.
      pose proof (split_nonempty sep (h ++ b)) as Hne'.
      destruct (split sep (h ++ b)); [contradiction|reflexivity].
    + reflexivity.
Qed.

Lemma popped_app (A B : list jsstring) :
  B <> [] -> popped (A ++ B) = A ++ popped B.
Proof. intros H. unfold popped. now apply removelast_app. Qed.

Lemma pop_or_empty_app (A B : list jsstring) :
  B <> [] -> pop_or_empty (A ++ B) = pop_or_empty B.
Proof.
  intros H. unfold pop_or_empty.
  induction A as [|a A IH]; simpl; [reflexivity|].
  destruct (A ++ B) eqn:E; [|exact IH].
  apply app_eq_nil in E. destruct E as [_ E]. contradiction.
Qed.

Section Framing.

Context {S : Type} (on_line : jsstring -> S -> S).

(** Two consecutive reads act as one read of the joined chunk. *)
Lemma read_loop_merge d buffer c1 c2 rest (st : S) :
  read_loop on_line d buffer (c1 :: c2 :: rest) st =
  read_loop on_line d buffer ((c1 ++ c2) :: rest) st.
Proof.
  simpl. rewrite decode_app.
  destruct (TextDecoder.decode d c1) as [d1 t1].
  destruct (TextDecoder.decode d1 c2) as [d2 t2].
  rewrite (app_assoc buffer t1 t2).
  rewrite (split_app NEWLINE (buffer ++ t1) t2).
  set (rest2 := split NEWLINE (pop_or_empty (split NEWLINE (buffer ++ t1)) ++ t2)).
  assert (Hne : rest2 <> []) by apply split_nonempty.
  rewrite popped_app, pop_or_empty_app by exact Hne.
  unfold for_lines. rewrite fold_left_app. reflexivity.
Qed.

Lemma read_loop_concat d buffer c rest (st : S) :
  read_loop on_line d buffer (c :: rest) st =
  read_loop on_line d buffer [List.concat (c :: rest)] st.
Proof.
  revert c. induction rest as [|c2 rest IH]; intros c.
  - simpl List.concat. now rewrite app_nil_r.
  - rewrite read_loop_merge, IH. simpl List.concat.
    now rewrite app_assoc.
Qed.

(** From the empty buffer, any chunking of the body is read as the
    whole body in one chunk. *)
Lemma read_loop_chunking d chunks (st : S) :
  read_loop on_line d [] chunks st =
  read_loop on_line d [] [List.concat chunks] st.
Proof.
  destruct chunks as [|c rest]; [reflexivity|].
  apply read_loop_concat.
Qed.

End Framing.

(** C6.  Framing does not depend on the chunk boundaries: however the bytes
    of a response body are cut into chunks - in the middle of a line or of
    a multi-byte UTF-8 sequence - the framer hands on the same lines in the
    same order, the final unterminated line included, as for any other
    cutting of the same bytes. *)
Theorem framing_chunk_boundary_invariant (chunks1 chunks2 : list (list byte)) :
  List.concat chunks1 = List.concat chunks2 ->
  framed_lines chunks1 = framed_lines chunks2.
Proof.
  intros H. unfold framed_lines.
  rewrite (read_loop_chunking keep_line TextDecoder.fresh chunks1).
  rewrite (read_loop_chunking keep_line TextDecoder.fresh chunks2).
  now rewrite H.
Qed.

Lemma framing_chunk_boundary_invariant_witness :
  framed_lines [[xc3]; [xa9; x0a]; [xf0; x9f]; [x98; x80; x0a; x62]] =
  framed_lines [[xc3; xa9; x0a; xf0; x9f; x98; x80; x0a; x62]].
Proof.
  apply framing_chunk_boundary_invariant. reflexivity.
Defined.

(** ** The state setters and the updaters *)

Lemma str_eqb_eq (a b : jsstring) : str_eqb a b = true -> a = b.
Proof.
  revert b. induction a as [|x a IH]; intros [|y b]; simpl;
    try discriminate; [reflexivity|].
  intros H. apply andb_prop in H. destruct H as [Hx Hr].
  apply N.eqb_eq in Hx. subst y. f_equal. now apply IH.
Qed.

(** An event has one type. *)
Lemma has_type_exclusive data (a b : string) :
  has_type data a = true -> has_type data b = true -> lit a = lit b.
Proof.
  unfold has_type, is_string.
  destruct (prop data (lit "type")); try discriminate.
  intros Ha Hb. apply str_eqb_eq in Ha, Hb. congruence.
Qed.

Lemma decode_is_parse {engine : Engine}
      (line : jsstring) : decode line = JSON_parse line.
Proof.
  unfold decode.
  destruct (JSON_parse line) as [data|e|] eqn:E; try reflexivity.
  destruct (startsWith line QUOTE && endsWith line QUOTE); reflexivity.
Qed.

Lemma with_streamError_some (m : jsval) (p : QueryResult) :
  with_streamError m (Some p) = Ok (Some (set_streamError m p)).
Proof. reflexivity. Qed.

Lemma record_error_live (m : jsval) (s : Store) :
  record_error m (Live s) =
  Live (mkStore (isLoading s) m
                (Some (set_streamError m (spread (currentQuery s))))).
Proof. reflexivity. Qed.

Lemma setIsLoading_record_error (b : bool) (m : jsval) (ss : Session) :
  setIsLoading b (record_error m ss) = record_error m (setIsLoading b ss).
Proof. destruct ss; reflexivity. Qed.

Lemma merge_documents_blind data : streamError_blind (merge_documents data).
Proof. intros m p. reflexivity. Qed.

Lemma merge_answer_blind {engine : Engine} data : streamError_blind (merge_answer data).
Proof.
  intros m p. unfold merge_answer. simpl spread.
  destruct (get (prop data (lit "data")) "answer"); simpl; try reflexivity.
  destruct (get (prop data (lit "data")) "structured_answer"); reflexivity.
Qed.

Lemma merge_highlights_blind {engine : Engine}
      data : streamError_blind (merge_highlights data).
Proof.
  intros m p. unfold merge_highlights.
  destruct (as_array _ _ (prop data (lit "data"))) as [entries| |]; simpl; try reflexivity.
  destruct (fill_highlightMap entries []) as [hm| |]; simpl; try reflexivity.
  destruct (as_array _ _ (documents p)) as [docs| |]; simpl; try reflexivity.
  destruct (attach_highlights hm docs); reflexivity.
Qed.

Lemma setCurrentQuery_record_error U (m : jsval) (ss : Session) :
  streamError_blind U -> querying ss ->
  setCurrentQuery U (record_error m ss) = record_error m (setCurrentQuery U ss).
Proof.
  intros HU Hq. destruct ss as [s| |]; try reflexivity.
  destruct s as [l e [p|]]; [|now elim Hq].
  rewrite record_error_live. cbn [currentQuery spread isLoading].
  unfold setCurrentQuery at 1. cbn [currentQuery isLoading error].
  rewrite HU. unfold setCurrentQuery. cbn [currentQuery isLoading error].
  destruct (U (Some p)) as [r| |]; reflexivity.
Qed.

(** Every setter keeps a query in progress. *)
Lemma querying_setIsLoading b ss : querying ss -> querying (setIsLoading b ss).
Proof. destruct ss; auto. Qed.

Lemma querying_setError v ss : querying ss -> querying (setError v ss).
Proof. destruct ss; auto. Qed.

Lemma querying_record_error m ss : querying (record_error m ss).
Proof. destruct ss; simpl; auto. discriminate. Qed.

Lemma querying_setCurrentQuery U ss :
  returns_object U -> querying (setCurrentQuery U ss).
Proof.
  intros HU. destruct ss as [s| |]; simpl; auto.
  destruct (U (currentQuery s)) eqn:E; simpl; auto.
  eapply HU; eauto.
Qed.

Lemma merge_documents_object data : returns_object (merge_documents data).
Proof. intros prev r H. inversion H. discriminate. Qed.

Lemma merge_answer_object {engine : Engine} data : returns_object (merge_answer data).
Proof.
  intros prev r. unfold merge_answer.
  destruct (get _ "answer"); simpl; try discriminate.
  destruct (get _ "structured_answer"); simpl; try discriminate.
  intros H. inversion H. discriminate.
Qed.

Lemma merge_highlights_object {engine : Engine}
      data : returns_object (merge_highlights data).
Proof.
  intros prev r. unfold merge_highlights.
  destruct (as_array _ _ (prop data (lit "data"))); simpl; try discriminate.
  destruct (fill_highlightMap _ _); simpl; try discriminate.
  destruct prev; try discriminate.
  destruct (as_array _ _ _); simpl; try discriminate.
  destruct (attach_highlights _ _); simpl; try discriminate.
  intros H. inversion H. discriminate.
Qed.

Lemma querying_begin_query q ss : querying (begin_query q ss).
Proof. destruct ss; simpl; auto. discriminate. Qed.

Lemma querying_handle_event {engine : Engine} data ss r :
  querying ss -> handle_event data ss = Ok r -> querying r.
Proof.
  intros Hq. unfold handle_event.
  destruct (get data "error") as [err| |]; simpl; try discriminate.
  destruct (truthy err).
  { intros H. inversion H. apply querying_setIsLoading, querying_record_error. }
  destruct (is_string _ (lit "documents")).
  { intros H. inversion H. apply querying_setCurrentQuery, merge_documents_object. }
  destruct (is_string _ (lit "highlights")).
  { intros H. inversion H. apply querying_setCurrentQuery, merge_highlights_object. }
  destruct (is_string _ (lit "answer")).
  { intros H. inversion H.
    destruct (truthy (prop data (lit "done")));
      [apply querying_setIsLoading|];
      apply querying_setCurrentQuery, merge_answer_object. }
  intros H. inversion H. subst. exact Hq.
Qed.

Lemma querying_process_line {engine : Engine} line ss :
  querying ss -> querying (process_line line ss).
Proof.
  intros Hq. unfold process_line.
  destruct (negb (nonempty (trim line))); [exact Hq|].
  destruct (decode line) as [data| |]; simpl.
  - destruct (handle_event data ss) eqn:E.
    + eapply querying_handle_event; eauto.
    + apply querying_record_error.
    + destruct ss; simpl; auto.
  - apply querying_record_error.
  - destruct ss; simpl; auto.
Qed.

Lemma querying_process_lines {engine : Engine} lines ss :
  querying ss -> querying (process_lines lines ss).
Proof.
  revert ss. unfold process_lines, for_lines.
  induction lines as [|l lines IH]; intros ss Hq; simpl; [exact Hq|].
  apply IH, querying_process_line, Hq.
Qed.

Lemma process_lines_app {engine : Engine} (l1 l2 : list jsstring) (ss : Session) :
  process_lines (l1 ++ l2) ss = process_lines l2 (process_lines l1 ss).
Proof. unfold process_lines, for_lines. apply fold_left_app. Qed.

Lemma process_lines_cons {engine : Engine}
      (l : jsstring) (ls : list jsstring) (ss : Session) :
  process_lines (l :: ls) ss = process_lines ls (process_line l ss).
Proof. reflexivity. Qed.

(** ** JSON.parse on a quoted string *)

Lemma bind_ret {E A : Type} (x : result E (list A)) :
  (ts <- x ;; Ok ([] ++ ts)) = x.
Proof. destruct x; reflexivity. Qed.

(** A unit the lexer reads without completing a token. *)
Lemma lex_silent (m m' : lex_mode) (c : N) (rest : jsstring) :
  lex_step m c = Ok (m', []) -> lex m (c :: rest) = lex m' rest.
Proof.
  intros H. cbn [lex]. rewrite H. cbn [bind fst snd]. apply bind_ret.
Qed.

(** A unit that stands for itself inside a string literal. *)
Lemma lex_plain (c : N) (acc rest : jsstring) :
  (c =? QUOTE) = false -> (c =? 92) = false -> (c <? 32) = false ->
  lex (LString acc) (c :: rest) = lex (LString (c :: acc)) rest.
Proof.
  intros H1 H2 H3. apply lex_silent. cbn [lex_step]. now rewrite H1, H2, H3.
Qed.

(** A two-unit escape. *)
Lemma lex_escape (e v : N) (acc rest : jsstring) :
  lex_step (LEscape acc) e = Ok (LString (v :: acc), []) ->
  lex (LString acc) (92 :: e :: rest) = lex (LString (v :: acc)) rest.
Proof.
  intros H. rewrite (lex_silent (LString acc) (LEscape acc)) by reflexivity.
  now apply lex_silent.
Qed.

Lemma hex_value_digit (n : N) : n < 16 -> hex_value (hex_digit n) = Some n.
Proof.
  intros H. destruct n as [|p]; [reflexivity|].
  do 4 (destruct p as [p|p|]; try reflexivity); lia.
Qed.

Lemma hex_digits_value (c : N) :
  (((0 * 16 + c / 4096) * 16 + (c / 256) mod 16) * 16
   + (c / 16) mod 16) * 16 + c mod 16 = c.
Proof.
  pose proof (N.div_mod c 16 ltac:(lia)) as H1.
  pose proof (N.div_mod (c / 16) 16 ltac:(lia)) as H2.
  pose proof (N.div_mod (c / 256) 16 ltac:(lia)) as H3.
  rewrite N.Div0.div_div in H2, H3.
  change (16 * 16) with 256 in *. change (256 * 16) with 4096 in *.
  lia.
Qed.

Lemma lex_hex (acc : jsstring) (count code d : N) (rest : jsstring) :
  d < 16 -> (count =? 3) = false ->
  lex (LUnicode acc count code) (hex_digit d :: rest) =
  lex (LUnicode acc (count + 1) (code * 16 + d)) rest.
Proof.
  intros Hd Hc. apply lex_silent. cbn [lex_step].
  now rewrite hex_value_digit, Hc.
Qed.

(** A [\uXXXX] escape of a code unit. *)
Lemma lex_unicode (c : N) (acc rest : jsstring) :
  c < 65536 ->
  lex (LString acc) (unicode_escape c ++ rest) = lex (LString (c :: acc)) rest.
Proof.
  intros Hc.
  change (unicode_escape c ++ rest) with
    (92 :: 117 :: hex_digit (c / 4096) :: hex_digit ((c / 256) mod 16)
        :: hex_digit ((c / 16) mod 16) :: hex_digit (c mod 16) :: rest).
  rewrite (lex_silent (LString acc) (LEscape acc)) by reflexivity.
  rewrite (lex_silent (LEscape acc) (LUnicode acc 0 0)) by reflexivity.
  assert (H4 : c / 4096 < 16) by (apply N.Div0.div_lt_upper_bound; lia).
  assert (Hm : forall x, x mod 16 < 16) by (intros x; apply N.mod_lt; lia).
  rewrite !lex_hex by (try reflexivity; auto).
  apply lex_silent. cbn [lex_step]. rewrite hex_value_digit by auto.
  change (0 + 1 + 1 + 1 =? 3) with true. cbv iota.
  now rewrite hex_digits_value.
Qed.

Lemma lex_quoted (n : nat) :
  forall (s acc : jsstring), (List.length s <= n)%nat ->
    lex (LString acc) (quote_units s ++ [QUOTE]) = Ok [TString (rev acc ++ s)].
Proof.
  induction n as [|n IH]; intros s acc Hlen.
  - destruct s; [|simpl in Hlen; lia].
    simpl. now rewrite app_nil_r.
  - destruct s as [|c r].
    { simpl. now rewrite app_nil_r. }
    simpl in Hlen.
    assert (Hr : (List.length r <= n)%nat) by lia.
    assert (Hnext : forall v, Ok [TString (rev (v :: acc) ++ r)] =
                              Ok [TString (rev acc ++ v :: r)] :> parsed (list token)).
    { intros v. simpl. now rewrite <- app_assoc. }
    cbn [quote_units].
    destruct (c =? 8) eqn:E8.
    { apply N.eqb_eq in E8. subst c.
      change (lit "\b" ++ quote_units r) with (92 :: 98 :: quote_units r).
      cbn [app]. rewrite (lex_escape 98 8) by reflexivity.
      rewrite IH by exact Hr. apply Hnext. }
    destruct (c =? 9) eqn:E9.
    { apply N.eqb_eq in E9. subst c.
      change (lit "\t" ++ quote_units r) with (92 :: 116 :: quote_units r).
      cbn [app]. rewrite (lex_escape 116 9) by reflexivity.
      rewrite IH by exact Hr. apply Hnext. }
    destruct (c =? 10) eqn:E10.
    { apply N.eqb_eq in E10. subst c.
      change (lit "\n" ++ quote_units r) with (92 :: 110 :: quote_units r).
      cbn [app]. rewrite (lex_escape 110 10) by reflexivity.
      rewrite IH by exact Hr. apply Hnext. }
    destruct (c =? 12) eqn:E12.
    { apply N.eqb_eq in E12. subst c.
      change (lit "\f" ++ quote_units r) with (92 :: 102 :: quote_units r).
      cbn [app]. rewrite (lex_escape 102 12) by reflexivity.
      rewrite IH by exact Hr. apply Hnext. }
    destruct (c =? 13) eqn:E13.
    { apply N.eqb_eq in E13. subst c.
      change (lit "\r" ++ quote_units r) with (92 :: 114 :: quote_units r).
      cbn [app]. rewrite (lex_escape 114 13) by reflexivity.
      rewrite IH by exact Hr. apply Hnext. }
    destruct (c =? QUOTE) eqn:Eq.
    { apply N.eqb_eq in Eq. subst c.
      cbn [app]. rewrite (lex_escape QUOTE QUOTE) by reflexivity.
      rewrite IH by exact Hr. apply Hnext. }
    destruct (c =? 92) eqn:Eb.
    { apply N.eqb_eq in Eb. subst c.
      cbn [app]. rewrite (lex_escape 92 92) by reflexivity.
      rewrite IH by exact Hr. apply Hnext. }
    destruct (c <? 32) eqn:Ec.
    { apply N.ltb_lt in Ec. rewrite <- app_assoc.
      rewrite lex_unicode by lia. rewrite IH by exact Hr. apply Hnext. }
    destruct (is_lead_surrogate c) eqn:El.
    { assert (Hc : c < 65536).
      { unfold is_lead_surrogate in El. apply andb_prop in El.
        destruct El as [_ El]. apply N.leb_le in El. lia. }
      destruct r as [|c2 r2].
      - rewrite lex_unicode by exact Hc.
        change [QUOTE] with (quote_units [] ++ [QUOTE]).
        rewrite (IH [] (c :: acc)) by (simpl; lia). apply Hnext.
      - destruct (is_trail_surrogate c2) eqn:Et.
        + cbn [app]. rewrite lex_plain by assumption.
          unfold is_trail_surrogate in Et. apply andb_prop in Et.
          destruct Et as [Et1 Et2]. apply N.leb_le in Et1, Et2.
          rewrite lex_plain
            by (try apply N.eqb_neq; try apply N.ltb_ge;
                unfold QUOTE; lia).
          rewrite IH by (simpl in Hr; lia).
          simpl. now rewrite <- !app_assoc.
        + rewrite <- app_assoc. rewrite lex_unicode by exact Hc.
          rewrite IH by exact Hr. apply Hnext. }
    destruct (is_trail_surrogate c) eqn:Et.
    { assert (Hc : c < 65536).
      { unfold is_trail_surrogate in Et. apply andb_prop in Et.
        destruct Et as [_ Et]. apply N.leb_le in Et. lia. }
      rewrite <- app_assoc. rewrite lex_unicode by exact Hc.
      rewrite IH by exact Hr. apply Hnext. }
    cbn [app]. rewrite lex_plain by assumption.
    rewrite IH by exact Hr. apply Hnext.
Qed.

(** [JSON.parse(JSON.stringify(s))] is [s], for every string [s]. *)
Lemma JSON_parse_stringify_string {engine : Engine} (s : jsstring) :
  JSON_parse (JSON_stringify_string s) = Ok (JStr s).
Proof.
  unfold JSON_parse, json_value, JSON_stringify_string.
  assert (H : lex LIdle (QUOTE :: quote_units s ++ [QUOTE]) = Ok [TString s]).
  { cbn [lex].
    change (lex_step LIdle QUOTE) with (Ok (LString [], @nil token) : parsed _).
    cbn [bind fst snd]. rewrite bind_ret.
    now rewrite (lex_quoted (List.length s) s []). }
  rewrite H. reflexivity.
Qed.

(** The double-encoded form of any line decodes to the line as a string:
    never to the object the line itself decodes to. *)
Lemma decode_double_encoded {engine : Engine} (line : jsstring) :
  decode (JSON_stringify_string line) = Ok (JStr line).
Proof. rewrite decode_is_parse. apply JSON_parse_stringify_string. Qed.

Lemma double_encoded_is_dropped {engine : Engine} (line : jsstring) (ss : Session) :
  process_line (JSON_stringify_string line) ss = ss.
Proof.
  unfold process_line. rewrite decode_double_encoded.
  assert (Hn : nonempty (trim (JSON_stringify_string line)) = true).
  { unfold JSON_stringify_string, trim.
    cbn [trimStart]. change (is_space QUOTE) with false. cbv iota.
    change (rev (QUOTE :: quote_units line ++ [QUOTE]))
      with (rev (quote_units line ++ [QUOTE]) ++ [QUOTE]).
    rewrite rev_app_distr. cbn [rev app trimStart].
    change (is_space QUOTE) with false. cbv iota.
    destruct (rev (QUOTE :: rev (quote_units line) ++ [QUOTE])) eqn:E;
      [|reflexivity].
    apply (f_equal (@List.length N)) in E. rewrite length_rev in E.
    simpl in E. discriminate. }
  rewrite Hn. reflexivity.
Qed.

(** ** The event scenario *)

(** C1.  The three lines - documents A and B with requested_k 5 and
    effective_k 3, highlights x for A, answer done with completion flag -
    applied in order to the freshly initialised query leave: documents
    A with highlights x and B with no highlights, in that order,
    requestedK 5, effectiveK 3, answer done, structured answer v = 1,
    loading false, streamError null. *)
Theorem three_event_scenario {engine : Engine} (q : jsval) (s : Store) :
  process_lines [line_documents; line_highlights; line_answer]
                (begin_query q (Live s)) =
  Live (mkStore false JNull
    (Some (mkQuery q
             (JArr [JObj [(lit "content", JStr (lit "A"));
                          (lit "highlights", JArr [JStr (lit "x")])];
                    JObj [(lit "content", JStr (lit "B"));
                          (lit "highlights", JArr [])]])
             (JStr (lit "done"))
             (JObj [(lit "v", JInt 1)])
             JNull (JInt 5) (JInt 3)))).
Proof. vm_compute. reflexivity. Qed.

(** The same three lines, sent as a response body, through [submitQuery]. *)
Lemma three_event_response {engine : Engine} (q : jsval) (s : Store) :
  session (submitQuery loaded
             (fun _ => inr (response_of (terminated line_documents
                                         ++ terminated line_highlights
                                         ++ terminated line_answer)))
             q (Live s)) =
  process_lines [line_documents; line_highlights; line_answer]
                (begin_query q (Live s)).
Proof. vm_compute. reflexivity. Qed.

(** ** From the bytes of a body to the lines of the reducer *)

Lemma split_line (sep : N) (line rest : jsstring) :
  ~ In sep line ->
  split sep (line ++ sep :: rest) = line :: split sep rest.
Proof.
  induction line as [|c line IH]; intros Hnot; simpl.
  - now rewrite N.eqb_refl.
  - destruct (c =? sep) eqn:E.
    + apply N.eqb_eq in E. subst c. elim Hnot. now left.
    + rewrite IH by (intros Hin; apply Hnot; now right). reflexivity.
Qed.

Lemma split_terminated (lines : list jsstring) :
  Forall (fun line => ~ In NEWLINE line) lines ->
  split NEWLINE (List.concat (map terminated lines)) = lines ++ [[]].
Proof.
  induction 1 as [|line lines Hline Hall IH]; [reflexivity|].
  simpl. unfold terminated at 1. rewrite <- app_assoc. simpl.
  now rewrite split_line, IH.
Qed.

(** ASCII text goes through the decoder unchanged. *)
Lemma decode_ascii (text : jsstring) :
  ascii_text text ->
  forall d, TextDecoder.bytes_needed d = 0 ->
    snd (TextDecoder.decode d (bytes_of text)) = text
    /\ TextDecoder.bytes_needed (fst (TextDecoder.decode d (bytes_of text))) = 0.
Proof.
  induction 1 as [|c text Hc Hall IH]; intros d Hd; [now split|].
  simpl.
  destruct (Byte.of_N c) as [b|] eqn:Eb.
  2:{ apply Byte.of_N_None_iff in Eb. lia. }
  apply Byte.to_of_N in Eb.
  unfold TextDecoder.step. rewrite Eb, Hd. simpl.
  unfold TextDecoder.lead.
  replace (c <=? 127) with true by (symmetry; apply N.leb_le; lia).
  unfold TextDecoder.emit, TextDecoder.utf16.
  replace (c <? 65536) with true by (symmetry; apply N.ltb_lt; lia).
  replace (c =? 65279) with false by (symmetry; apply N.eqb_neq; lia).
  destruct (TextDecoder.bom_seen d).
  - specialize (IH d Hd).
    destruct (TextDecoder.decode d (bytes_of text)) as [d2 o2].
    simpl in *. destruct IH as [-> ->]. now split.
  - match goal with
    | |- context [TextDecoder.decode ?d1 _] => specialize (IH d1 Hd)
    end.
    match goal with
    | |- context [TextDecoder.decode ?d1 ?bs] =>
        destruct (TextDecoder.decode d1 bs) as [d2 o2]
    end.
    simpl in *. destruct IH as [-> ->]. now split.
Qed.

Lemma ascii_concat (lines : list jsstring) :
  Forall ascii_text lines -> ascii_text (List.concat (map terminated lines)).
Proof.
  induction 1 as [|line lines Hl Hall IH]; [constructor|].
  simpl. unfold terminated at 1. unfold ascii_text in *.
  rewrite <- app_assoc. apply Forall_app. split; [exact Hl|].
  constructor; [unfold NEWLINE; lia|exact IH].
Qed.

(** A body of terminated ASCII lines, however chunked, is the run of the
    reducer over these lines; nothing is left to flush and nothing is
    thrown. *)
Lemma consume_lines {engine : Engine}
      response chunks (lines : list jsstring) (ss : Session) :
  ok response = true ->
  body response = Some (chunks, None) ->
  List.concat chunks = bytes_of (List.concat (map terminated lines)) ->
  Forall ascii_text lines ->
  Forall (fun line => ~ In NEWLINE line) lines ->
  consume response ss = (process_lines lines ss, None).
Proof.
  intros Hok Hb Hbytes Hascii Hnl.
  unfold consume. rewrite Hok, Hb. cbn [negb].
  rewrite (read_loop_chunking process_line TextDecoder.fresh chunks), Hbytes.
  cbn [read_loop].
  destruct (decode_ascii _ (ascii_concat lines Hascii) TextDecoder.fresh eq_refl)
    as [Htext _].
  destruct (TextDecoder.decode TextDecoder.fresh
              (bytes_of (List.concat (map terminated lines)))) as [d text].
  simpl in Htext. subst text. cbn [app].
  rewrite split_terminated by exact Hnl.
  unfold popped, pop_or_empty. rewrite removelast_last, last_last.
  reflexivity.
Qed.

(** ** Parse failures *)

Lemma handle_event_record_error {engine : Engine} data err (m : jsval) (ss : Session) :
  querying ss ->
  get data "error" = Ok err -> truthy err = false ->
  handle_event data (record_error m ss) =
  (r <- handle_event data ss ;; Ok (record_error m r)).
Proof.
  intros Hq Hg Ht. unfold handle_event. rewrite Hg. simpl. rewrite Ht.
  destruct (is_string _ (lit "documents")).
  { simpl. now rewrite setCurrentQuery_record_error
      by (auto using merge_documents_blind). }
  destruct (is_string _ (lit "highlights")).
  { simpl. now rewrite setCurrentQuery_record_error
      by (auto using merge_highlights_blind). }
  destruct (is_string _ (lit "answer")); [|reflexivity].
  simpl. rewrite setCurrentQuery_record_error
    by (auto using merge_answer_blind).
  destruct (truthy (prop data (lit "done"))); [|reflexivity].
  now rewrite setIsLoading_record_error.
Qed.

Lemma handle_event_total {engine : Engine} data err ss :
  get data "error" = Ok err -> exists r, handle_event data ss = Ok r.
Proof.
  intros Hg. unfold handle_event. rewrite Hg. simpl.
  destruct (truthy err); [eauto|].
  destruct (is_string _ (lit "documents")); [eauto|].
  destruct (is_string _ (lit "highlights")); [eauto|].
  destruct (is_string _ (lit "answer")); eauto.
Qed.

(** Recording an error and applying an event commute. *)
Lemma process_line_record_error {engine : Engine} line (m : jsval) (ss : Session) :
  querying ss -> event_of line <> None ->
  process_line line (record_error m ss) =
  record_error m (process_line line ss).
Proof.
  intros Hq He. unfold event_of in He. unfold process_line.
  destruct (nonempty (trim line)); [simpl|now elim He].
  destruct (decode line) as [data| |]; try now elim He.
  destruct (get data "error") as [err| |] eqn:Hg; try now elim He.
  destruct (truthy err) eqn:Ht; [now elim He|].
  simpl. rewrite (handle_event_record_error data err) by assumption.
  destruct (handle_event_total data err ss Hg) as [r Hr].
  rewrite Hr. reflexivity.
Qed.

Lemma process_lines_record_error {engine : Engine} lines (m : jsval) (ss : Session) :
  querying ss -> Forall (fun l => event_of l <> None) lines ->
  process_lines lines (record_error m ss) =
  record_error m (process_lines lines ss).
Proof.
  intros Hq Hall. revert ss Hq.
  induction Hall as [|l lines Hl Hall IH]; intros ss Hq; [reflexivity|].
  rewrite !process_lines_cons.
  rewrite process_line_record_error by assumption.
  apply IH, querying_process_line, Hq.
Qed.

Lemma process_line_malformed {engine : Engine} line e (ss : Session) :
  nonempty (trim line) = true -> decode line = Throw e ->
  process_line line ss = record_error (JStr (parseMsg e)) ss.
Proof.
  intros Hn Hd. unfold process_line. rewrite Hn, Hd. reflexivity.
Qed.

(** The read loop and the final flush throw nothing of their own: only a
    rejected read leaves [consume] with an exception. *)
Lemma consume_no_exception {engine : Engine} response chunks (ss : Session) :
  ok response = true -> body response = Some (chunks, None) ->
  snd (consume response ss) = None.
Proof.
  intros Hok Hb. unfold consume. rewrite Hok, Hb. simpl.
  destruct (read_loop process_line TextDecoder.fresh [] chunks ss) as [[d b] s1].
  reflexivity.
Qed.

(** The outcome of a response does not depend on how its body is cut
    into chunks. *)
Lemma consume_chunking {engine : Engine} response chunks failure (ss : Session) :
  body response = Some (chunks, failure) ->
  consume response ss =
  consume (mkResponse (status response) (statusText response)
                      (Some ([List.concat chunks], failure))) ss.
Proof.
  intros Hb. unfold consume, ok. rewrite Hb. cbn [status statusText body].
  now rewrite (read_loop_chunking process_line TextDecoder.fresh chunks).
Qed.

(** Whatever [decode] throws is the SyntaxError of the first
    [JSON.parse]: the retry parses the same text again. *)
Lemma decode_throws {engine : Engine} (line : jsstring) (e : js_error) :
  decode line = Throw e -> e = raise (NotValidJSON line).
Proof.
  unfold decode, JSON_parse.
  destruct (json_value line) as [v|u|]; try discriminate.
  destruct (startsWith line QUOTE && endsWith line QUOTE);
    cbn [bind]; intros H; now inversion H.
Qed.

Lemma describe_raise {engine : Engine} (f : failure) :
  describe (raise f) =
  if nonempty (wording f) then wording f else err_name (raise f).
Proof.
  unfold describe, error_to_string. cbn [err_message err_name raise].
  destruct (nonempty (wording f)) eqn:E; [reflexivity|].
  destruct f; reflexivity.
Qed.

Lemma malformed_line_dropped {engine : Engine}
      (before after : list jsstring) (bad : jsstring) (e : js_error)
      (ss : Session) :
  querying ss ->
  nonempty (trim bad) = true -> decode bad = Throw e ->
  Forall (fun l => event_of l <> None) after ->
  process_lines (before ++ bad :: after) ss =
  record_error (JStr (parseMsg e)) (process_lines (before ++ after) ss).
Proof.
  intros Hq Hn Hd Hall.
  rewrite !process_lines_app, process_lines_cons.
  rewrite (process_line_malformed bad e) by assumption.
  apply process_lines_record_error; [|assumption].
  apply querying_process_lines, Hq.
Qed.

(** ** What a line does to the query object *)

Lemma get_ok {engine : Engine} v k x : get v k = Ok x -> x = prop v (lit k).
Proof. destruct v; simpl; intros H; inversion H; reflexivity. Qed.

Lemma setCurrentQuery_live U s s' :
  setCurrentQuery U (Live s) = Live s' ->
  exists r, U (currentQuery s) = Ok r /\
            s' = mkStore (isLoading s) (error s) r.
Proof.
  simpl. destruct (U (currentQuery s)) as [r| |]; try discriminate.
  intros H. inversion H. eauto.
Qed.

Lemma setIsLoading_live b ss s' :
  setIsLoading b ss = Live s' ->
  exists s, ss = Live s /\ s' = mkStore b (error s) (currentQuery s).
Proof.
  destruct ss as [s| |]; try discriminate.
  intros H. inversion H. eauto.
Qed.

Lemma merge_answer_ok {engine : Engine} data p r :
  merge_answer data (Some p) = Ok r ->
  r = Some (mkQuery (question p) (documents p)
                    (prop (prop data (lit "data")) (lit "answer"))
                    (prop (prop data (lit "data")) (lit "structured_answer"))
                    (streamError p) (requestedK p) (effectiveK p)).
Proof.
  unfold merge_answer.
  destruct (get _ "answer") as [a| |] eqn:Ea; simpl; try discriminate.
  destruct (get _ "structured_answer") as [sa| |] eqn:Es; simpl; try discriminate.
  apply get_ok in Ea, Es. subst. intros H. inversion H. reflexivity.
Qed.

Lemma merge_highlights_ok {engine : Engine} data p r :
  merge_highlights data (Some p) = Ok r ->
  exists updatedDocs,
    r = Some (mkQuery (question p) (JArr updatedDocs) (answer p)
                      (structured_answer p) (streamError p)
                      (next_k data "requested_k" requestedK (Some p))
                      (next_k data "effective_k" effectiveK (Some p))).
Proof.
  unfold merge_highlights.
  destruct (as_array _ _ (prop data (lit "data"))); simpl; try discriminate.
  destruct (fill_highlightMap _ _); simpl; try discriminate.
  destruct (as_array _ _ _); simpl; try discriminate.
  destruct (attach_highlights _ _) as [docs| |]; simpl; try discriminate.
  intros H. inversion H. eauto.
Qed.

(** Inversion of one step of the reducer on a live session with a query. *)
Lemma process_line_effect {engine : Engine} line s q s' :
  currentQuery s = Some q ->
  process_line line (Live s) = Live s' ->
  exists q', currentQuery s' = Some q' /\ effect line q q'.
Proof.
  intros Hq. unfold process_line.
  pose proof (eq_refl (event_of line)) as Hev. unfold event_of at 2 in Hev.
  destruct (nonempty (trim line)); cbn [negb].
  2:{ intros H. inversion H. subst. eexists; split; [eassumption|].
      apply effect_none; [|reflexivity]. rewrite Hev. discriminate. }
  destruct (decode line) as [data|e|]; cbn [bind]; try discriminate.
  2:{ rewrite record_error_live, Hq. intros H. inversion H. simpl.
      eauto using effect_error. }
  unfold handle_event.
  destruct (get data "error") as [err|e|]; cbn [bind]; try discriminate.
  2:{ rewrite record_error_live, Hq. intros H. inversion H. simpl.
      eauto using effect_error. }
  destruct (truthy err).
  { rewrite record_error_live, Hq. intros H. inversion H. simpl.
    eauto using effect_error. }
  fold (has_type data "documents"). fold (has_type data "highlights").
  fold (has_type data "answer").
  destruct (has_type data "documents") eqn:Td.
  { intros H. apply setCurrentQuery_live in H. destruct H as (r & Hr & ->).
    rewrite Hq in Hr. inversion Hr. simpl.
    eexists; split; [reflexivity|]. eapply effect_documents; eauto. }
  destruct (has_type data "highlights") eqn:Th.
  { intros H. apply setCurrentQuery_live in H. destruct H as (r & Hr & ->).
    rewrite Hq in Hr. apply merge_highlights_ok in Hr.
    destruct Hr as (docs & ->). simpl.
    eexists; split; [reflexivity|]. eapply effect_highlights; eauto. }
  destruct (has_type data "answer") eqn:Ta.
  { intros H.
    assert (Hs : exists l, s' = mkStore l (error s)
              (Some (mkQuery (question q) (documents q)
                    (prop (prop data (lit "data")) (lit "answer"))
                    (prop (prop data (lit "data")) (lit "structured_answer"))
                    (streamError q) (requestedK q) (effectiveK q)))).
    { destruct (truthy (prop data (lit "done"))).
      - apply setIsLoading_live in H. destruct H as (s1 & H1 & ->).
        apply setCurrentQuery_live in H1. destruct H1 as (r & Hr & ->).
        rewrite Hq in Hr. apply merge_answer_ok in Hr. subst r.
        simpl. eauto.
      - apply setCurrentQuery_live in H. destruct H as (r & Hr & ->).
        rewrite Hq in Hr. apply merge_answer_ok in Hr. subst r.
        simpl. eauto. }
    destruct Hs as (l & ->). simpl.
    eexists; split; [reflexivity|]. eapply effect_answer; eauto. }
  intros H. inversion H. subst. eexists; split; [eassumption|].
  apply effect_none; [|reflexivity].
  rewrite Hev. intros d Hd. inversion Hd. subst d. auto.
Qed.

(** ** requestedK and effectiveK *)

Lemma js_coalesce_set (x y : jsval) :
  nullish x = false -> js_coalesce (js_coalesce x y) JNull = x.
Proof. intros H. unfold js_coalesce. now rewrite H, H. Qed.

Lemma js_coalesce_keep (x y : jsval) :
  nullish x = true -> nullish y = false ->
  js_coalesce (js_coalesce x y) JNull = y.
Proof. intros Hx Hy. unfold js_coalesce. now rewrite Hx, Hy. Qed.

Lemma merges_k_cases data :
  merges_k data = true ->
  has_type data "documents" = true \/ has_type data "highlights" = true.
Proof. unfold merges_k. apply orb_true_iff. Qed.

(** The claim as first stated fails: an answer event that carries
    requested_k and effective_k leaves requestedK and effectiveK as they
    were. *)
Lemma k_ignored_on_answer_event :
  let after := process_line line_answer_with_k (begin_query JNull (Live idle)) in
  option_map (fun d => (prop d (lit "requested_k"), prop d (lit "effective_k")))
             (event_of line_answer_with_k) = Some (JInt 7, JInt 4)
  /\ optional requestedK (query_of after) = JNull
  /\ ~ (optional requestedK (query_of after) = JInt 7
        /\ optional effectiveK (query_of after) = JInt 4).
Proof.
  cbv zeta. split; [vm_compute; reflexivity|].
  split; [vm_compute; reflexivity|].
  vm_compute. intros [H _]. discriminate.
Qed.

Lemma effect_keeps_requestedK {engine : Engine} line q q' :
  effect line q q' -> omits "requested_k" line ->
  nullish (requestedK q) = false -> requestedK q' = requestedK q.
Proof.
  intros Heff Homit Hset.
  destruct Heff as [Hno ->|msg Hev ->|data Hev Ht ->|data docs Hev Ht ->
                    |data Hev Ht Hd Hh ->]; try reflexivity.
  - simpl. unfold next_k, optional. apply js_coalesce_keep; [|exact Hset].
    apply Homit; [exact Hev|]. unfold merges_k. now rewrite Ht.
  - simpl. unfold next_k, optional. apply js_coalesce_keep; [|exact Hset].
    apply Homit; [exact Hev|]. unfold merges_k. rewrite Ht. apply orb_true_r.
Qed.

Lemma effect_keeps_effectiveK {engine : Engine} line q q' :
  effect line q q' -> omits "effective_k" line ->
  nullish (effectiveK q) = false -> effectiveK q' = effectiveK q.
Proof.
  intros Heff Homit Hset.
  destruct Heff as [Hno ->|msg Hev ->|data Hev Ht ->|data docs Hev Ht ->
                    |data Hev Ht Hd Hh ->]; try reflexivity.
  - simpl. unfold next_k, optional. apply js_coalesce_keep; [|exact Hset].
    apply Homit; [exact Hev|]. unfold merges_k. now rewrite Ht.
  - simpl. unfold next_k, optional. apply js_coalesce_keep; [|exact Hset].
    apply Homit; [exact Hev|]. unfold merges_k. rewrite Ht. apply orb_true_r.
Qed.

(** A session that is no longer live stays as it is. *)
Lemma process_line_live {engine : Engine} line ss s' :
  process_line line ss = Live s' -> exists s, ss = Live s.
Proof.
  destruct ss as [s|e|]; [eauto| |]; intros H; exfalso; revert H;
    unfold process_line;
    (destruct (negb (nonempty (trim line))); [discriminate|]);
    (destruct (decode line) as [data| |]; cbn [bind]; try discriminate);
    unfold handle_event;
    (destruct (get data "error") as [err| |]; cbn [bind]; try discriminate);
    (destruct (truthy err); [discriminate|]);
    (destruct (is_string _ (lit "documents")); [discriminate|]);
    (destruct (is_string _ (lit "highlights")); [discriminate|]);
    (destruct (is_string _ (lit "answer")); [|discriminate]);
    destruct (truthy (prop data (lit "done"))); discriminate.
Qed.

Lemma process_lines_live {engine : Engine} lines ss s' :
  process_lines lines ss = Live s' -> exists s, ss = Live s.
Proof.
  revert ss. induction lines as [|l lines IH]; intros ss H.
  - inversion H. eauto.
  - rewrite process_lines_cons in H. apply IH in H. destruct H as [s1 H].
    eapply process_line_live; eauto.
Qed.

(** Once set, the two fields survive any run of lines that omit them. *)
Lemma k_retained_across_lines {engine : Engine} (lines : list jsstring) :
  forall (s s' : Store) (q : QueryResult),
    currentQuery s = Some q ->
    nullish (requestedK q) = false -> nullish (effectiveK q) = false ->
    Forall (fun l => omits "requested_k" l /\ omits "effective_k" l) lines ->
    process_lines lines (Live s) = Live s' ->
    exists q', currentQuery s' = Some q' /\
               requestedK q' = requestedK q /\ effectiveK q' = effectiveK q.
Proof.
  induction lines as [|l lines IH]; intros s s' q Hq Hr He Hall Hrun.
  - inversion Hrun. subst. eauto.
  - rewrite process_lines_cons in Hrun.
    inversion Hall as [|? ? [Hor Hoe] Hall']. subst.
    destruct (process_line l (Live s)) as [s1| |] eqn:Hstep.
    2,3: (apply process_lines_live in Hrun; destruct Hrun; discriminate).
    destruct (process_line_effect l s q s1 Hq Hstep) as (q1 & Hq1 & Heff).
    pose proof (effect_keeps_requestedK _ _ _ Heff Hor Hr) as Hr1.
    pose proof (effect_keeps_effectiveK _ _ _ Heff Hoe He) as He1.
    destruct (IH s1 s' q1 Hq1) as (q' & Hq' & Hr' & He'); auto.
    + now rewrite Hr1.
    + now rewrite He1.
    + exists q'. repeat split; congruence.
Qed.

(** C7, amended.  requestedK and effectiveK are written by documents and
    highlights events only: such an event that carries a requested_k
    (effective_k) other than null sets the field to it, and one that
    omits it leaves a field that was set as it is.  Every other line -
    an answer event, an event of unknown type, an error event, a line
    that fails to decode - leaves both fields exactly as they were, set
    or not, whatever requested_k or effective_k it carries. *)
Theorem k_set_and_retained {engine : Engine}
      (line : jsstring) (s s' : Store) (q : QueryResult) :
  currentQuery s = Some q ->
  process_line line (Live s) = Live s' ->
  exists q', currentQuery s' = Some q' /\
    (forall data, event_of line = Some data -> merges_k data = true ->
       (nullish (prop data (lit "requested_k")) = false ->
        requestedK q' = prop data (lit "requested_k")) /\
       (nullish (prop data (lit "effective_k")) = false ->
        effectiveK q' = prop data (lit "effective_k"))) /\
    (nullish (requestedK q) = false -> omits "requested_k" line ->
     requestedK q' = requestedK q) /\
    (nullish (effectiveK q) = false -> omits "effective_k" line ->
     effectiveK q' = effectiveK q) /\
    (match event_of line with
     | Some data => merges_k data = false
     | None => True
     end ->
     requestedK q' = requestedK q /\ effectiveK q' = effectiveK q).
Proof.
  intros Hq Hstep.
  destruct (process_line_effect line s q s' Hq Hstep) as (q' & Hq' & Heff).
  exists q'. split; [exact Hq'|]. split; [|split; [|split]].
  - destruct Heff as [Hno ->|msg Hev ->|data Hev Ht ->|data docs Hev Ht ->
                      |data Hev Ht Hd Hh ->].
    + intros data Hev Hm. destruct (Hno data Hev) as (Hd & Hh & _).
      unfold merges_k in Hm. rewrite Hd, Hh in Hm. discriminate.
    + intros data Hev'. rewrite Hev in Hev'. discriminate.
    + intros d Hd _. rewrite Hev in Hd. inversion Hd. subst d.
      simpl. unfold next_k. split; intros Hn; now apply js_coalesce_set.
    + intros d Hd _. rewrite Hev in Hd. inversion Hd. subst d.
      simpl. unfold next_k. split; intros Hn; now apply js_coalesce_set.
    + intros d Hd' Hm. rewrite Hev in Hd'. inversion Hd'. subst d.
      unfold merges_k in Hm. rewrite Hd, Hh in Hm. discriminate.
  - intros Hset Homit. now apply (effect_keeps_requestedK line).
  - intros Hset Homit. now apply (effect_keeps_effectiveK line).
  - destruct Heff as [Hno ->|msg Hev ->|data Hev Ht ->|data docs Hev Ht ->
                      |data Hev Ht Hd Hh ->]; try (intros _; split; reflexivity).
    + rewrite Hev. unfold merges_k. rewrite Ht. discriminate.
    + rewrite Hev. unfold merges_k. rewrite Ht, orb_true_r. discriminate.
Qed.

Lemma k_set_and_retained_witness :
  (exists q',
     currentQuery (mkStore true JNull
                     (Some (mkQuery JNull (JArr []) (JStr (lit "a")) JNull JNull
                                    (JInt 5) (JInt 3)))) = Some q'
     /\ requestedK q' = JInt 5 /\ effectiveK q' = JInt 3)
  /\
  (exists q',
     currentQuery (mkStore true JNull
                     (Some (mkQuery JNull (JArr []) (JStr (lit "a")) JNull JNull
                                    JNull JNull))) = Some q'
     /\ requestedK q' = JNull /\ effectiveK q' = JNull).
Proof.
  split.
  - destruct (k_set_and_retained line_answer_with_k
                (mkStore true JNull
                   (Some (mkQuery JNull (JArr []) JNull JNull JNull
                                  (JInt 5) (JInt 3))))
                (mkStore true JNull
                   (Some (mkQuery JNull (JArr []) (JStr (lit "a")) JNull JNull
                                  (JInt 5) (JInt 3))))
                (mkQuery JNull (JArr []) JNull JNull JNull (JInt 5) (JInt 3)))
      as (q' & Hq' & _ & Hr & He & _).
    + reflexivity.
    + vm_compute. reflexivity.
    + exists q'. split; [exact Hq'|]. split.
      * apply Hr; [reflexivity|].
        intros data Hev Hm. vm_compute in Hev. inversion Hev. subst data.
        vm_compute in Hm. discriminate.
      * apply He; [reflexivity|].
        intros data Hev Hm. vm_compute in Hev. inversion Hev. subst data.
        vm_compute in Hm. discriminate.
  - destruct (k_set_and_retained line_answer_with_k
                (mkStore true JNull (Some (initial_query JNull)))
                (mkStore true JNull
                   (Some (mkQuery JNull (JArr []) (JStr (lit "a")) JNull JNull
                                  JNull JNull)))
                (initial_query JNull))
      as (q' & Hq' & _ & _ & _ & Hk).
    + reflexivity.
    + vm_compute. reflexivity.
    + exists q'. split; [exact Hq'|]. apply Hk. vm_compute. reflexivity.
Defined.

(** ** The error field *)

(** The claim as first stated fails: an event whose error field is the
    empty string goes through the type handling; nothing is recorded and
    loading stays set. *)
Lemma empty_error_field_is_not_an_error :
  let after := process_line line_answer_empty_error (begin_query JNull (Live idle)) in
  option_map (fun d => prop d (lit "error")) (event_of line_answer_empty_error)
    = Some (JStr [])
  /\ after = Live (mkStore true JNull
                    (Some (mkQuery JNull (JArr []) (JStr (lit "a")) JNull
                                   JNull JNull JNull)))
  /\ ~ (exists s', after = Live s' /\ isLoading s' = false
                   /\ error s' = JStr []
                   /\ optional streamError (currentQuery s') = JStr []
                   /\ optional answer (currentQuery s') = JNull).
Proof.
  cbv zeta. split; [vm_compute; reflexivity|].
  split; [vm_compute; reflexivity|].
  intros (s' & Hs' & Hl & _). vm_compute in Hs'. inversion Hs'. subst s'.
  discriminate.
Qed.

Lemma truthy_falsy (v : jsval) : truthy v = false <-> falsy v.
Proof.
  split.
  - destruct v as [| |[|]|m e|s| |]; simpl; try discriminate; try constructor.
    + intros H. apply negb_false_iff, Z.eqb_eq in H. subst m. constructor.
    + destruct s; [constructor|discriminate].
  - intros H. destruct H; reflexivity.
Qed.

Lemma obj_get_without_error (k : jsstring) (o : list (jsstring * jsval)) :
  str_eqb k (lit "error") = false ->
  obj_get k (filter (fun kv => negb (str_eqb (fst kv) (lit "error"))) o) =
  obj_get k o.
Proof.
  intros Hk. induction o as [|[k' v] o IH]; [reflexivity|].
  cbn [filter fst obj_get].
  destruct (str_eqb k' (lit "error")) eqn:E; cbn [negb].
  - apply str_eqb_eq in E. subst k'. rewrite Hk. exact IH.
  - cbn [obj_get]. destruct (str_eqb k k'); [reflexivity|exact IH].
Qed.

Lemma obj_get_error_removed (o : list (jsstring * jsval)) :
  obj_get (lit "error")
          (filter (fun kv => negb (str_eqb (fst kv) (lit "error"))) o) = None.
Proof.
  induction o as [|[k' v] o IH]; [reflexivity|].
  cbn [filter fst].
  destruct (str_eqb k' (lit "error")) eqn:E; cbn [negb]; [exact IH|].
  cbn [obj_get].
  destruct (str_eqb (lit "error") k') eqn:E'; [|exact IH].
  apply str_eqb_eq in E'. subst k'. discriminate E.
Qed.

Lemma prop_without_error (data : jsval) (k : jsstring) :
  str_eqb k (lit "error") = false ->
  prop (without_error data) k = prop data k.
Proof.
  intros Hk. destruct data; try reflexivity.
  cbn [without_error prop]. now rewrite obj_get_without_error.
Qed.

Lemma setCurrentQuery_ext
      (U V : option QueryResult -> res (option QueryResult)) (ss : Session) :
  (forall p, U p = V p) -> setCurrentQuery U ss = setCurrentQuery V ss.
Proof.
  intros H. destruct ss; try reflexivity.
  unfold setCurrentQuery. now rewrite H.
Qed.

(** Removing a falsy error property changes nothing in the handling of
    an event. *)
Lemma handle_event_without_error {engine : Engine} data err (ss : Session) :
  get data "error" = Ok err -> truthy err = false ->
  handle_event (without_error data) ss = handle_event data ss.
Proof.
  intros Hg Ht. unfold handle_event. rewrite Hg. cbn [bind]. rewrite Ht.
  assert (Hn : nullish (without_error data) = false).
  { unfold get in Hg. destruct data; try discriminate; reflexivity. }
  unfold get. rewrite Hn. cbn [bind].
  assert (He : truthy (prop (without_error data) (lit "error")) = false).
  { destruct data; try reflexivity.
    cbn [without_error prop]. now rewrite obj_get_error_removed. }
  rewrite He. rewrite !prop_without_error by reflexivity.
  destruct (is_string _ (lit "documents")).
  { f_equal. apply setCurrentQuery_ext. intros p.
    unfold merge_documents, next_k.
    now rewrite !prop_without_error by reflexivity. }
  destruct (is_string _ (lit "highlights")).
  { f_equal. apply setCurrentQuery_ext. intros p.
    unfold merge_highlights, next_k.
    now rewrite !prop_without_error by reflexivity. }
  destruct (is_string _ (lit "answer")); [|reflexivity].
  assert (Hm : setCurrentQuery (merge_answer (without_error data)) ss =
               setCurrentQuery (merge_answer data) ss).
  { apply setCurrentQuery_ext. intros p. unfold merge_answer.
    now rewrite !prop_without_error by reflexivity. }
  now rewrite Hm.
Qed.

(** C8, amended.  For every decoded event whose top-level error field is
    not one of the values that count as false (undefined, null, false,
    zero, the empty string), the error comes before the type: it becomes
    the surfaced error and the streamError, loading is cleared, no other
    field of the query changes - the merge of the event's type is not
    applied - and the lines after it are processed from that state.  An
    event whose error field is one of those values is handled by its
    type, exactly as the same event without the error field is. *)
Theorem truthy_error_takes_precedence {engine : Engine}
        (line : jsstring) (data err : jsval) (s : Store) (rest : list jsstring) :
  nonempty (trim line) = true ->
  decode line = Ok data ->
  get data "error" = Ok err ->
  (~ falsy err ->
   process_line line (Live s) =
     Live (mkStore false err
                   (Some (set_streamError err (spread (currentQuery s)))))
   /\ process_lines (line :: rest) (Live s) =
      process_lines rest
        (Live (mkStore false err
                       (Some (set_streamError err (spread (currentQuery s)))))))
  /\ (falsy err ->
      forall plain_line,
        nonempty (trim plain_line) = true ->
        decode plain_line = Ok (without_error data) ->
        process_line line (Live s) = process_line plain_line (Live s)
        /\ process_lines (line :: rest) (Live s) =
           process_lines (plain_line :: rest) (Live s)).
Proof.
  intros Hn Hd Hg. split.
  - intros Hnot.
    assert (Ht : truthy err = true).
    { destruct (truthy err) eqn:E; [reflexivity|].
      elim Hnot. now apply truthy_falsy. }
    assert (H : process_line line (Live s) =
                Live (mkStore false err
                        (Some (set_streamError err (spread (currentQuery s)))))).
    { unfold process_line. rewrite Hn, Hd. cbn [negb bind].
      unfold handle_event. rewrite Hg. cbn [bind]. rewrite Ht.
      reflexivity. }
    split; [exact H|].
    rewrite process_lines_cons, H. reflexivity.
  - intros Hf plain_line Hn' Hd'.
    apply truthy_falsy in Hf.
    assert (H : process_line line (Live s) = process_line plain_line (Live s)).
    { unfold process_line. rewrite Hn, Hn', Hd, Hd'. cbn [negb bind].
      now rewrite (handle_event_without_error data err). }
    split; [exact H|].
    now rewrite !process_lines_cons, H.
Qed.

Lemma truthy_error_takes_precedence_witness :
  process_line line_answer_done_with_error
               (Live (mkStore true JNull (Some (initial_query JNull)))) =
  Live (mkStore false (JStr (lit "timeout"))
          (Some (mkQuery JNull (JArr []) JNull JNull (JStr (lit "timeout"))
                         JNull JNull)))
  /\
  process_line line_answer_empty_error
               (Live (mkStore true JNull (Some (initial_query JNull)))) =
  Live (mkStore true JNull
          (Some (mkQuery JNull (JArr []) (JStr (lit "a")) JNull JNull
                         JNull JNull))).
Proof.
  split.
  - destruct (truthy_error_takes_precedence line_answer_done_with_error
                (JObj [(lit "type", JStr (lit "answer"));
                       (lit "data", JObj [(lit "answer", JStr (lit "a"));
                                          (lit "structured_answer", JNull)]);
                       (lit "done", JBool true);
                       (lit "error", JStr (lit "timeout"))])
                (JStr (lit "timeout"))
                (mkStore true JNull (Some (initial_query JNull))) [])
      as [[H _] _].
    + vm_compute. reflexivity.
    + vm_compute. reflexivity.
    + vm_compute. reflexivity.
    + intros H. inversion H.
    + exact H.
  - destruct (truthy_error_takes_precedence line_answer_empty_error
                (JObj [(lit "type", JStr (lit "answer"));
                       (lit "data", JObj [(lit "answer", JStr (lit "a"));
                                          (lit "structured_answer", JNull)]);
                       (lit "error", JStr [])])
                (JStr [])
                (mkStore true JNull (Some (initial_query JNull))) [])
      as [_ H].
    + vm_compute. reflexivity.
    + vm_compute. reflexivity.
    + vm_compute. reflexivity.
    + destruct (H falsy_empty line_answer_without_error) as [H' _].
      * vm_compute. reflexivity.
      * vm_compute. reflexivity.
      * rewrite H'. vm_compute. reflexivity.
Defined.

(** ** answer and structuredAnswer *)

(** The claim as first stated fails: a second answer event overwrites
    what the first one set. *)
Lemma second_answer_overwrites :
  let first := process_line line_first_answer (begin_query JNull (Live idle)) in
  let second := process_line line_second_answer first in
  optional answer (query_of first) = JStr (lit "first")
  /\ optional answer (query_of second) = JStr (lit "second")
  /\ ~ (optional answer (query_of second) = optional answer (query_of first)
        /\ optional structured_answer (query_of second) =
           optional structured_answer (query_of first)).
Proof.
  cbv zeta. split; [vm_compute; reflexivity|].
  split; [vm_compute; reflexivity|].
  vm_compute. intros [H _]. discriminate.
Qed.

(** C9, amended.  answer and structuredAnswer are written together, in
    one update, by answer events and by nothing else: a line that carries
    an answer event sets both from the event's payload - every time, so a
    later answer event overwrites an earlier one - and any other line
    leaves both as they are. *)
Theorem answer_written_by_answer_events_only {engine : Engine}
        (line : jsstring) (s s' : Store) (q : QueryResult) :
  currentQuery s = Some q ->
  process_line line (Live s) = Live s' ->
  exists q', currentQuery s' = Some q' /\
    match event_of line with
    | Some data =>
        if has_type data "answer" then
          answer q' = prop (prop data (lit "data")) (lit "answer") /\
          structured_answer q' =
            prop (prop data (lit "data")) (lit "structured_answer")
        else answer q' = answer q /\ structured_answer q' = structured_answer q
    | None => answer q' = answer q /\ structured_answer q' = structured_answer q
    end.
Proof.
  intros Hq Hstep.
  destruct (process_line_effect line s q s' Hq Hstep) as (q' & Hq' & Heff).
  exists q'. split; [exact Hq'|].
  destruct Heff as [Hno ->|msg Hev ->|data Hev Ht ->|data docs Hev Ht ->
                    |data Hev Ht Hd Hh ->].
  - destruct (event_of line) as [data|]; [|auto].
    destruct (Hno data eq_refl) as (_ & _ & ->). auto.
  - rewrite Hev. auto.
  - rewrite Hev. destruct (has_type data "answer") eqn:E; [|auto].
    pose proof (has_type_exclusive _ _ _ Ht E) as H. discriminate H.
  - rewrite Hev. destruct (has_type data "answer") eqn:E; [|auto].
    pose proof (has_type_exclusive _ _ _ Ht E) as H. discriminate H.
  - rewrite Hev, Ht. auto.
Qed.

Lemma answer_written_by_answer_events_only_witness :
  exists q',
    currentQuery (mkStore true JNull
                    (Some (mkQuery JNull (JArr []) (JStr (lit "second")) (JInt 2)
                                   JNull JNull JNull))) = Some q'
    /\ answer q' = JStr (lit "second") /\ structured_answer q' = JInt 2.
Proof.
  destruct (answer_written_by_answer_events_only line_second_answer
              (mkStore true JNull
                 (Some (mkQuery JNull (JArr []) (JStr (lit "first")) (JInt 1)
                                JNull JNull JNull)))
              (mkStore true JNull
                 (Some (mkQuery JNull (JArr []) (JStr (lit "second")) (JInt 2)
                                JNull JNull JNull)))
              (mkQuery JNull (JArr []) (JStr (lit "first")) (JInt 1)
                       JNull JNull JNull))
    as (q' & Hq' & H).
  - reflexivity.
  - vm_compute. reflexivity.
  - exists q'. split; [exact Hq'|]. inversion Hq'. subst q'.
    split; reflexivity.
Defined.

(** ** The final flush *)

(** C2.  The rest of the buffer at the end of the stream is decoded like
    any line, but no merge is applied to it: the answer event that sets
    answer and structuredAnswer when its line is terminated leaves both
    null when it arrives as the unterminated end of the body; only the
    loading flag follows the completion flag. *)
Theorem final_flush_drops_the_event {engine : Engine} (q : jsval) (s : Store) :
  process_line line_answer (begin_query q (Live s)) =
    Live (mkStore false JNull
            (Some (mkQuery q (JArr []) (JStr (lit "done"))
                           (JObj [(lit "v", JInt 1)]) JNull JNull JNull)))
  /\ process_final line_answer (begin_query q (Live s)) =
    Live (mkStore false JNull (Some (initial_query q)))
  /\ session (submitQuery loaded (fun _ => inr (response_of line_answer))
                          q (Live s)) =
    Live (mkStore false JNull (Some (initial_query q)))
  /\ session (submitQuery loaded
                (fun _ => inr (response_of (terminated line_answer)))
                q (Live s)) =
    Live (mkStore false JNull
            (Some (mkQuery q (JArr []) (JStr (lit "done"))
                           (JObj [(lit "v", JInt 1)]) JNull JNull JNull))).
Proof. repeat split; vm_compute; reflexivity. Qed.

(** The flush in general: whatever the rest of the buffer holds, the only
    field of the query it can change is streamError. *)
Lemma process_final_effect {engine : Engine}
      (buffer : jsstring) (s s' : Store) (q : QueryResult) :
  currentQuery s = Some q ->
  process_final buffer (Live s) = Live s' ->
  exists q', currentQuery s' = Some q' /\
             (q' = q \/ exists msg, q' = set_streamError msg q).
Proof.
  intros Hq. unfold process_final.
  destruct (nonempty (trim buffer)).
  2:{ intros H. inversion H. subst. eauto. }
  destruct (decode buffer) as [data|e|]; cbn [bind]; try discriminate.
  2:{ rewrite record_error_live, Hq. intros H. inversion H. simpl. eauto. }
  unfold handle_final.
  destruct (get data "type") as [type|e|]; cbn [bind]; try discriminate.
  2:{ rewrite record_error_live, Hq. intros H. inversion H. simpl. eauto. }
  destruct (is_string type (lit "error") || truthy (prop data (lit "error"))).
  - rewrite record_error_live, Hq.
    destruct (is_string type (lit "answer") && truthy (prop data (lit "done")));
      intros H; inversion H; simpl; eauto.
  - destruct (is_string type (lit "answer") && truthy (prop data (lit "done")));
      intros H; inversion H; subst; simpl; eauto.
Qed.

(** The flushed scenario of the specification: an error object without
    line terminator. *)
Lemma final_flush_timeout {engine : Engine} (q : jsval) (s : Store) :
  session (submitQuery loaded (fun _ => inr (response_of line_timeout))
                       q (Live s)) =
  Live (mkStore false (JStr (lit "timeout"))
          (Some (set_streamError (JStr (lit "timeout")) (initial_query q)))).
Proof. vm_compute. reflexivity. Qed.

(** A flushed line that fails to decode is reported under its own prefix. *)
Lemma final_flush_malformed {engine : Engine}
      (buffer : jsstring) (e : js_error) (ss : Session) :
  nonempty (trim buffer) = true -> decode buffer = Throw e ->
  process_final buffer ss =
  record_error (JStr (lit "stream_parse_error(final): " ++ describe e)) ss.
Proof.
  intros Hn Hd. unfold process_final. rewrite Hn, Hd. reflexivity.
Qed.

(** ** Double encoding *)

(** C5.  The double-encoded form of a line is a valid JSON text - a
    string literal - so the first parse succeeds and the unwrapping branch
    is not taken: for every line the decoder yields the line as a string,
    not the event object the line itself decodes to, and the line is
    dropped as an event of unknown type.  So it is for the answer line of
    the scenario. *)
Theorem double_encoded_line_decodes_to_string {engine : Engine} :
  (forall line, decode (JSON_stringify_string line) = Ok (JStr line))
  /\ (forall line ss, process_line (JSON_stringify_string line) ss = ss)
  /\ decode line_answer =
      Ok (JObj [(lit "type", JStr (lit "answer"));
                (lit "data", JObj [(lit "answer", JStr (lit "done"));
                                   (lit "structured_answer",
                                    JObj [(lit "v", JInt 1)])]);
                (lit "done", JBool true)])
  /\ decode (JSON_stringify_string line_answer) <> decode line_answer.
Proof.
  split; [exact decode_double_encoded|].
  split; [exact double_encoded_is_dropped|].
  split; [vm_compute; reflexivity|].
  rewrite decode_double_encoded. vm_compute. discriminate.
Qed.

(** ** HTTP failure *)

(** The claim as first stated fails: after a 503 the query object is not
    unset. *)
Lemma http_503_query_is_not_unset :
  let out := submitQuery loaded (fun _ => inr response_503)
                         (JStr (lit "q")) (Live idle) in
  ~ (exists s', session out = Live s'
                /\ error s' = JStr (lit "Server responded with 503: Service Unavailable")
                /\ isLoading s' = false
                /\ currentQuery s' = None).
Proof.
  cbv zeta. intros (s' & Hs' & _ & _ & Hq).
  vm_compute in Hs'. inversion Hs'. subst s'. discriminate.
Qed.

(** C3, amended.  When the initial response has a status outside 200-299,
    the query stops before any line of the body is read: submitQuery
    returns null, the surfaced error is "Server responded with", the
    status code, a colon and the status text, loading is false, and the
    query object is not unset - it is the one created for this query,
    with the same message as streamError. *)
Theorem http_failure_aborts {engine : Engine}
        (env : Closure) (fetch : Request -> js_error + Response)
        (question : jsval) (s : Store) (response : Response) :
  truthy (isResourcesLoaded env) = true ->
  fetch (query_request question (numDocs env)) = inr response ->
  ok response = false ->
  submitQuery env fetch question (Live s) =
  mkOutcome None
    (Live (mkStore false
       (JStr (lit "Server responded with " ++ decimal (status response)
              ++ lit ": " ++ statusText response))
       (Some (set_streamError
                (JStr (lit "Server responded with " ++ decimal (status response)
                       ++ lit ": " ++ statusText response))
                (initial_query question)))))
    [query_request question (numDocs env)].
Proof.
  intros Hl Hf Hok. unfold submitQuery. rewrite Hl, Hf. cbn [negb].
  unfold consume. rewrite Hok. reflexivity.
Qed.

Lemma http_failure_aborts_witness :
  submitQuery loaded (fun _ => inr response_503) (JStr (lit "q")) (Live idle) =
  mkOutcome None
    (Live (mkStore false
       (JStr (lit "Server responded with 503: Service Unavailable"))
       (Some (set_streamError
                (JStr (lit "Server responded with 503: Service Unavailable"))
                (initial_query (JStr (lit "q")))))))
    [query_request (JStr (lit "q")) (JInt 20)].
Proof.
  exact (http_failure_aborts loaded (fun _ => inr response_503)
           (JStr (lit "q")) idle response_503 eq_refl eq_refl eq_refl).
Defined.

(** ** Resources not loaded *)

(** C10.  Called while the resources are not loaded, submitQuery records
    the error "Resources not loaded. Please wait for the system to
    initialize.", returns null, sends no request, and leaves the query
    object as it was: no new query is created. *)
Theorem resources_not_loaded {engine : Engine}
        (env : Closure) (fetch : Request -> js_error + Response)
        (question : jsval) (s : Store) :
  truthy (isResourcesLoaded env) = false ->
  submitQuery env fetch question (Live s) =
  mkOutcome None
    (Live (mkStore (isLoading s)
       (JStr (lit "Resources not loaded. Please wait for the system to initialize."))
       (currentQuery s)))
    [].
Proof.
  intros Hl. unfold submitQuery. rewrite Hl. reflexivity.
Qed.

Lemma resources_not_loaded_witness :
  submitQuery not_loaded (fun _ => inr (response_of (terminated line_answer)))
              (JStr (lit "q"))
              (Live (mkStore false JNull (Some (initial_query (JStr (lit "old")))))) =
  mkOutcome None
    (Live (mkStore false
       (JStr (lit "Resources not loaded. Please wait for the system to initialize."))
       (Some (initial_query (JStr (lit "old"))))))
    [].
Proof.
  apply (resources_not_loaded not_loaded). reflexivity.
Defined.

(** ** Invariants of a query in progress *)

Lemma advance_refl s q : currentQuery s = Some q -> advance s s.
Proof. intros Hq. exists q, q. repeat split; auto. Qed.

Lemma advance_record_error (m : jsval) (b : bool) s q :
  currentQuery s = Some q -> truthy m = true ->
  (b = isLoading s \/ b = false) ->
  advance s (mkStore b m (Some (set_streamError m q))).
Proof.
  intros Hq Hm Hb. exists q, (set_streamError m q).
  repeat split; auto. right. exists m. auto.
Qed.

Lemma advance_update (b : bool) s q q' :
  currentQuery s = Some q ->
  question q' = question q -> streamError q' = streamError q ->
  (b = isLoading s \/ b = false) ->
  advance s (mkStore b (error s) (Some q')).
Proof.
  intros Hq Hqu Hse Hb. exists q, q'. repeat split; auto.
Qed.

Lemma parseMsg_truthy e : truthy (JStr (parseMsg e)) = true.
Proof. reflexivity. Qed.

Lemma finalParseMsg_truthy e : truthy (JStr (finalParseMsg e)) = true.
Proof. reflexivity. Qed.

(** One line, seen from the store. *)
Lemma process_line_advance {engine : Engine} line s s' q :
  currentQuery s = Some q ->
  process_line line (Live s) = Live s' -> advance s s'.
Proof.
  intros Hq. unfold process_line.
  destruct (nonempty (trim line)); cbn [negb].
  2:{ intros H. inversion H. subst. eauto using advance_refl. }
  destruct (decode line) as [data|e|]; cbn [bind]; try discriminate.
  2:{ rewrite record_error_live, Hq. intros H. inversion H.
      eapply advance_record_error; eauto. }
  unfold handle_event.
  destruct (get data "error") as [err|e|]; cbn [bind]; try discriminate.
  2:{ rewrite record_error_live, Hq. intros H. inversion H.
      eapply advance_record_error; eauto. }
  destruct (truthy err) eqn:Ht.
  { rewrite record_error_live, Hq. intros H. inversion H.
    eapply advance_record_error; eauto. }
  destruct (is_string _ (lit "documents")).
  { intros H. apply setCurrentQuery_live in H. destruct H as (r & Hr & ->).
    rewrite Hq in Hr. inversion Hr. eapply advance_update; eauto. }
  destruct (is_string _ (lit "highlights")).
  { intros H. apply setCurrentQuery_live in H. destruct H as (r & Hr & ->).
    rewrite Hq in Hr. apply merge_highlights_ok in Hr.
    destruct Hr as (docs & ->). eapply advance_update; eauto. }
  destruct (is_string _ (lit "answer")).
  { destruct (truthy (prop data (lit "done"))); intros H.
    - apply setIsLoading_live in H. destruct H as (s1 & H1 & ->).
      apply setCurrentQuery_live in H1. destruct H1 as (r & Hr & ->).
      rewrite Hq in Hr. apply merge_answer_ok in Hr. subst r.
      cbn [error currentQuery]. eapply advance_update; eauto.
    - apply setCurrentQuery_live in H. destruct H as (r & Hr & ->).
      rewrite Hq in Hr. apply merge_answer_ok in Hr. subst r.
      eapply advance_update; eauto. }
  intros H. inversion H. subst. eauto using advance_refl.
Qed.

(** The final flush, seen from the store. *)
Lemma process_final_advance {engine : Engine} buffer s s' q :
  currentQuery s = Some q ->
  process_final buffer (Live s) = Live s' -> advance s s'.
Proof.
  intros Hq. unfold process_final.
  destruct (nonempty (trim buffer)).
  2:{ intros H. inversion H. subst. eauto using advance_refl. }
  destruct (decode buffer) as [data|e|]; cbn [bind]; try discriminate.
  2:{ rewrite record_error_live, Hq. intros H. inversion H.
      eapply advance_record_error; eauto. }
  unfold handle_final.
  destruct (get data "type") as [type|e|]; cbn [bind]; try discriminate.
  2:{ rewrite record_error_live, Hq. intros H. inversion H.
      eapply advance_record_error; eauto. }
  destruct (is_string type (lit "error") || truthy (prop data (lit "error"))) eqn:E.
  - assert (Hm : truthy (js_or (prop data (lit "error"))
                               (JStr (lit "Unknown streaming error"))) = true).
    { unfold js_or. destruct (truthy (prop data (lit "error"))) eqn:Ht; auto. }
    rewrite record_error_live, Hq.
    destruct (is_string type (lit "answer") && truthy (prop data (lit "done")));
      intros H; inversion H; eapply advance_record_error; eauto.
  - destruct (is_string type (lit "answer") && truthy (prop data (lit "done")));
      intros H; inversion H; subst.
    + rewrite Hq. apply (advance_update false s q q); auto.
    + eauto using advance_refl.
Qed.

Lemma advance_trans s1 s2 s3 : advance s1 s2 -> advance s2 s3 -> advance s1 s3.
Proof.
  intros (q1 & q2 & H1 & H2 & Hq & He & Hl) (q2' & q3 & H2' & H3 & Hq' & He' & Hl').
  rewrite H2 in H2'. inversion H2'. subst q2'.
  exists q1, q3. repeat split; auto.
  - congruence.
  - destruct He' as [[Ea Eb]|(m & Hm & Ea & Eb)].
    + destruct He as [[Ec Ed]|(m & Hm & Ec & Ed)].
      * left. split; congruence.
      * right. exists m. repeat split; congruence.
    + right. exists m. auto.
  - destruct Hl' as [Hl'|Hl']; [|auto]. rewrite Hl'. exact Hl.
Qed.

Lemma process_lines_advance {engine : Engine} lines :
  forall s s' q, currentQuery s = Some q ->
    process_lines lines (Live s) = Live s' -> advance s s'.
Proof.
  induction lines as [|l lines IH]; intros s s' q Hq Hrun.
  - inversion Hrun. subst. eauto using advance_refl.
  - rewrite process_lines_cons in Hrun.
    destruct (process_lines_live _ _ _ Hrun) as [s1 Hs1].
    rewrite Hs1 in Hrun.
    pose proof (process_line_advance _ _ _ _ Hq Hs1) as A1.
    destruct A1 as (qa & q1 & Ha & H1 & Hrest).
    eapply advance_trans.
    + exists qa, q1. split; [exact Ha|]. split; [exact H1|exact Hrest].
    + eapply IH; eauto.
Qed.

(** The lines the read loop hands to the reducer, as a list. *)
Lemma read_loop_lines {engine : Engine} chunks :
  forall d buffer (ss : Session),
    exists lines,
      snd (read_loop process_line d buffer chunks ss) = process_lines lines ss.
Proof.
  induction chunks as [|c chunks IH]; intros d buffer ss.
  - exists []. reflexivity.
  - cbn [read_loop].
    destruct (TextDecoder.decode d c) as [d' text].
    set (ls := split NEWLINE (buffer ++ text)).
    destruct (IH d' (pop_or_empty ls) (for_lines process_line (popped ls) ss))
      as [rest Hrest].
    exists (popped ls ++ rest). rewrite Hrest.
    now rewrite process_lines_app.
Qed.

(** What the stream of a response can do to a store with a query. *)
Lemma process_final_live {engine : Engine} buffer ss s' :
  process_final buffer ss = Live s' -> exists s, ss = Live s.
Proof.
  destruct ss as [s|e|]; [eauto| |]; intros H; exfalso; revert H;
    unfold process_final;
    (destruct (nonempty (trim buffer)); [|discriminate]);
    (destruct (decode buffer) as [data| |]; cbn [bind]; try discriminate);
    unfold handle_final;
    (destruct (get data "type") as [type| |]; cbn [bind]; try discriminate);
    destruct (is_string type (lit "error") || truthy (prop data (lit "error")));
    destruct (is_string type (lit "answer") && truthy (prop data (lit "done")));
    discriminate.
Qed.

(** What the [try] block does, from the response on, to a store with a
    query: the lines and the flush advance it; a status that is not ok
    only writes the status message as streamError. *)
Lemma consume_advance {engine : Engine} response s ss' thrown q s' :
  currentQuery s = Some q ->
  consume response (Live s) = (ss', thrown) ->
  ss' = Live s' ->
  advance s s' \/
  (ok response = false /\
   s' = mkStore (isLoading s) (error s)
          (Some (set_streamError (JStr (status_message response)) q))).
Proof.
  intros Hq. unfold consume.
  destruct (ok response); cbn [negb].
  2:{ intros H Hs'. right. split; [reflexivity|].
      inversion H as [[H1 H2]]. rewrite <- H1 in Hs'.
      simpl in Hs'. rewrite Hq in Hs'. inversion Hs'. reflexivity. }
  destruct (body response) as [[chunks failure]|].
  2:{ intros H Hs'. inversion H as [[H1 H2]]. rewrite <- H1 in Hs'.
      inversion Hs' as [Hss]. rewrite <- Hss. left. eapply advance_refl. exact Hq. }
  destruct (read_loop_lines chunks TextDecoder.fresh [] (Live s)) as [lines Hl].
  destruct (read_loop process_line TextDecoder.fresh [] chunks (Live s))
    as [[d buffer] ss1].
  simpl in Hl.
  destruct failure as [e|]; intros H Hs'; inversion H as [[H1 H2]];
    rewrite <- H1 in Hs'; left.
  - rewrite Hl in Hs'. eapply process_lines_advance; eauto.
  - destruct (process_final_live _ _ _ Hs') as [s1 Hs1].
    rewrite Hs1 in Hs'. rewrite Hs1 in Hl. symmetry in Hl.
    pose proof (process_lines_advance _ _ _ _ Hq Hl) as A1.
    assert (Hq1 : exists q1, currentQuery s1 = Some q1).
    { destruct A1 as (? & q1 & _ & Hc & _). eauto. }
    destruct Hq1 as [q1 Hq1].
    eapply advance_trans; [exact A1|].
    eapply process_final_advance; eauto.
Qed.

(** ** The body as text *)

Lemma plainb_plain (line : jsstring) : plainb line = true -> plain line.
Proof.
  unfold plainb, plain, ascii_text. intros H.
  rewrite forallb_forall in H. split.
  - apply Forall_forall. intros c Hc. apply H in Hc.
    apply andb_prop in Hc. destruct Hc as [Hc _]. now apply N.ltb_lt.
  - intros Hin. apply H in Hin. apply andb_prop in Hin.
    destruct Hin as [_ Hn]. now rewrite N.eqb_refl in Hn.
Qed.

Lemma split_no_separator (sep : N) (s : jsstring) :
  ~ In sep s -> split sep s = [s].
Proof.
  induction s as [|c s IH]; intros Hnot; [reflexivity|]. simpl.
  destruct (c =? sep) eqn:E.
  - apply N.eqb_eq in E. subst c. elim Hnot. now left.
  - rewrite IH by (intros Hin; apply Hnot; now right). reflexivity.
Qed.

Lemma split_joined (lines : list jsstring) (rest : jsstring) :
  Forall plain lines -> plain rest ->
  split NEWLINE (joined lines rest) = lines ++ [rest].
Proof.
  intros Hall [_ Hrest]. unfold joined.
  induction Hall as [|line lines [_ Hline] Hall IH]; simpl.
  - now apply split_no_separator.
  - unfold terminated at 1. rewrite <- !app_assoc. simpl.
    now rewrite split_line, IH.
Qed.

Lemma ascii_joined (lines : list jsstring) (rest : jsstring) :
  Forall plain lines -> plain rest -> ascii_text (joined lines rest).
Proof.
  intros Hall [Hrest _]. unfold joined.
  induction Hall as [|line lines [Hline _] Hall IH]; simpl; [exact Hrest|].
  unfold terminated at 1. unfold ascii_text in *.
  rewrite <- !app_assoc. apply Forall_app. split; [exact Hline|].
  constructor; [unfold NEWLINE; lia|exact IH].
Qed.

(** The read loop on the bytes of a plain text, however chunked: the
    terminated lines go to the handler, the rest stays in the buffer. *)
Lemma read_loop_joined {S : Type} (on_line : jsstring -> S -> S)
      chunks (lines : list jsstring) (rest : jsstring) (st : S) :
  List.concat chunks = bytes_of (joined lines rest) ->
  Forall plain lines -> plain rest ->
  exists d, read_loop on_line TextDecoder.fresh [] chunks st =
            (d, rest, for_lines on_line lines st).
Proof.
  intros Hbytes Hlines Hrest.
  rewrite (read_loop_chunking on_line TextDecoder.fresh chunks), Hbytes.
  cbn [read_loop].
  destruct (decode_ascii _ (ascii_joined lines rest Hlines Hrest)
              TextDecoder.fresh eq_refl) as [Htext _].
  destruct (TextDecoder.decode TextDecoder.fresh (bytes_of (joined lines rest)))
    as [d text].
  simpl in Htext. subst text. cbn [app].
  rewrite split_joined by assumption.
  unfold popped, pop_or_empty. rewrite removelast_last, last_last.
  eauto.
Qed.

Lemma consume_joined {engine : Engine} response chunks failure
      (lines : list jsstring) (rest : jsstring) (ss : Session) :
  ok response = true ->
  body response = Some (chunks, failure) ->
  List.concat chunks = bytes_of (joined lines rest) ->
  Forall plain lines -> plain rest ->
  consume response ss =
  match failure with
  | None => (process_final rest (process_lines lines ss), None)
  | Some e => (process_lines lines ss, Some e)
  end.
Proof.
  intros Hok Hb Hbytes Hlines Hrest.
  unfold consume. rewrite Hok, Hb. cbn [negb].
  destruct (read_loop_joined process_line chunks lines rest ss Hbytes Hlines Hrest)
    as [d ->].
  destruct failure; reflexivity.
Qed.

(** ** submitQuery, path by path *)

(** X1.  A body of plain lines, however it is cut into chunks, is the
    reducer run over its terminated lines, then the flush of the
    unterminated rest; loading ends false and the value returned is the
    currentQuery the callback closed over, not the query just built. *)
Theorem stream_is_a_fold {engine : Engine}
        (env : Closure) (fetch : Request -> js_error + Response)
        (question : jsval) (ss : Session) (response : Response)
        (chunks : list (list byte)) (lines : list jsstring) (rest : jsstring) :
  truthy (isResourcesLoaded env) = true ->
  fetch (query_request question (numDocs env)) = inr response ->
  ok response = true ->
  body response = Some (chunks, None) ->
  List.concat chunks = bytes_of (joined lines rest) ->
  Forall plain lines -> plain rest ->
  submitQuery env fetch question ss =
  mkOutcome (closed_currentQuery env)
            (setIsLoading false
               (process_final rest
                  (process_lines lines (begin_query question ss))))
            [query_request question (numDocs env)].
Proof.
  intros Hl Hf Hok Hb Hbytes Hlines Hrest.
  unfold submitQuery. rewrite Hl, Hf. cbn [negb].
  rewrite (consume_joined response chunks None lines rest) by assumption.
  reflexivity.
Qed.

Lemma stream_is_a_fold_witness :
  submitQuery loaded
    (fun _ => inr (mkResponse 200 (lit "OK")
                     (Some ([bytes_of (terminated line_documents);
                             bytes_of line_timeout], None))))
    JNull (Live idle) =
  mkOutcome None
            (setIsLoading false
               (process_final line_timeout
                  (process_lines [line_documents] (begin_query JNull (Live idle)))))
            [query_request JNull (JInt 20)].
Proof.
  apply (stream_is_a_fold loaded _ JNull (Live idle)
           (mkResponse 200 (lit "OK")
              (Some ([bytes_of (terminated line_documents);
                      bytes_of line_timeout], None)))
           [bytes_of (terminated line_documents); bytes_of line_timeout]
           [line_documents] line_timeout).
  - reflexivity.
  - reflexivity.
  - reflexivity.
  - reflexivity.
  - vm_compute. reflexivity.
  - repeat constructor; apply plainb_plain; vm_compute; reflexivity.
  - apply plainb_plain. vm_compute. reflexivity.
Defined.

(** X2.  When a read is rejected in the middle of the body, the lines
    completed before it stay applied, the unterminated rest of the
    buffer is dropped without being flushed, the message of the rejection
    becomes the surfaced error (streamError is not written), loading
    ends false and null is returned. *)
Theorem read_failure_keeps_the_lines_read {engine : Engine}
        (env : Closure) (fetch : Request -> js_error + Response)
        (question : jsval) (ss : Session) (response : Response)
        (chunks : list (list byte)) (e : js_error)
        (lines : list jsstring) (rest : jsstring) :
  truthy (isResourcesLoaded env) = true ->
  fetch (query_request question (numDocs env)) = inr response ->
  ok response = true ->
  body response = Some (chunks, Some e) ->
  List.concat chunks = bytes_of (joined lines rest) ->
  Forall plain lines -> plain rest ->
  submitQuery env fetch question ss =
  mkOutcome None
            (setIsLoading false
               (setError (JStr (err_message e))
                  (process_lines lines (begin_query question ss))))
            [query_request question (numDocs env)].
Proof.
  intros Hl Hf Hok Hb Hbytes Hlines Hrest.
  unfold submitQuery. rewrite Hl, Hf. cbn [negb].
  rewrite (consume_joined response chunks (Some e) lines rest) by assumption.
  reflexivity.
Qed.

Lemma read_failure_keeps_the_lines_read_witness :
  session
    (submitQuery loaded
       (fun _ => inr (mkResponse 200 (lit "OK")
                        (Some ([bytes_of (terminated line_documents);
                                bytes_of line_answer],
                               Some (TypeError "network error")))))
       JNull (Live idle)) =
  Live (mkStore false (JStr (lit "network error"))
          (Some (mkQuery JNull
                   (JArr [JObj [(lit "content", JStr (lit "A"))];
                          JObj [(lit "content", JStr (lit "B"))]])
                   JNull JNull JNull (JInt 5) (JInt 3)))).
Proof.
  rewrite (read_failure_keeps_the_lines_read loaded _ JNull (Live idle)
             (mkResponse 200 (lit "OK")
                (Some ([bytes_of (terminated line_documents);
                        bytes_of line_answer],
                       Some (TypeError "network error"))))
             [bytes_of (terminated line_documents); bytes_of line_answer]
             (TypeError "network error") [line_documents] line_answer).
  - vm_compute. reflexivity.
  - reflexivity.
  - reflexivity.
  - reflexivity.
  - reflexivity.
  - vm_compute. reflexivity.
  - repeat constructor; apply plainb_plain; vm_compute; reflexivity.
  - apply plainb_plain. vm_compute. reflexivity.
Defined.

(** X3.  When no body can be read - the request is rejected, or the
    response has no body, so that reading getReader of null throws - the
    query stays the one just created, with streamError null; the message
    of the exception (the one fetch rejected with, or the engine's
    TypeError for getReader of null) becomes the surfaced error, loading
    ends false, null is returned, and the one request made is the POST of
    the question with the current numDocs. *)
Theorem failure_before_reading {engine : Engine}
        (env : Closure) (fetch : Request -> js_error + Response)
        (question : jsval) (s : Store) (text : jsstring) :
  truthy (isResourcesLoaded env) = true ->
  ((exists e, fetch (query_request question (numDocs env)) = inl e /\
              text = err_message e) \/
   (exists response,
      fetch (query_request question (numDocs env)) = inr response /\
      ok response = true /\ body response = None /\
      text = wording (PropertyOfNullish JNull (lit "getReader")))) ->
  submitQuery env fetch question (Live s) =
  mkOutcome None
            (Live (mkStore false (JStr text)
                           (Some (initial_query question))))
            [mkRequest (lit "/api/query/stream") (lit "POST")
               [(lit "Content-Type", lit "application/json");
                (lit "Cache-Control", lit "no-cache");
                (lit "X-Accel-Buffering", lit "no")]
               (JObj [(lit "question", question);
                      (lit "num_docs", numDocs env)])].
Proof.
  intros Hl [(e & Hf & ->)|(response & Hf & Hok & Hb & ->)];
    unfold submitQuery; rewrite Hl, Hf; cbn [negb]; [reflexivity|].
  unfold consume. rewrite Hok, Hb. reflexivity.
Qed.

Lemma failure_before_reading_witness :
  submitQuery loaded (fun _ => inl (TypeError "Failed to fetch"))
              (JStr (lit "q")) (Live idle) =
  mkOutcome None
            (Live (mkStore false (JStr (lit "Failed to fetch"))
                           (Some (initial_query (JStr (lit "q"))))))
            [query_request (JStr (lit "q")) (JInt 20)]
  /\
  submitQuery loaded (fun _ => inr (mkResponse 200 (lit "OK") None))
              (JStr (lit "q")) (Live idle) =
  mkOutcome None
            (Live (mkStore false
                     (JStr (lit "Cannot read properties of null (reading 'getReader')"))
                     (Some (initial_query (JStr (lit "q"))))))
            [query_request (JStr (lit "q")) (JInt 20)].
Proof.
  split.
  - apply (failure_before_reading loaded _ (JStr (lit "q")) idle
             (lit "Failed to fetch")).
    + reflexivity.
    + left. exists (TypeError "Failed to fetch"). split; reflexivity.
  - apply (failure_before_reading loaded _ (JStr (lit "q")) idle
             (lit "Cannot read properties of null (reading 'getReader')")).
    + reflexivity.
    + right. exists (mkResponse 200 (lit "OK") None).
      repeat split; vm_compute; reflexivity.
Defined.

(** X4.  The outcome of submitQuery does not depend on how the body is
    cut into chunks: a response and the same response delivered in one
    chunk give the same return value, the same state and the same
    request. *)
Theorem submitQuery_chunking {engine : Engine}
        (env : Closure) (fetch : Request -> js_error + Response)
        (question : jsval) (ss : Session) :
  submitQuery env
    (fun request => match fetch request with
                    | inr response => inr (in_one_chunk response)
                    | inl err => inl err
                    end)
    question ss =
  submitQuery env fetch question ss.
Proof.
  unfold submitQuery.
  destruct (negb (truthy (isResourcesLoaded env))); [reflexivity|].
  destruct (fetch (query_request question (numDocs env))) as [err|response];
    [reflexivity|].
  assert (H : consume (in_one_chunk response) (begin_query question ss) =
              consume response (begin_query question ss)).
  { unfold in_one_chunk.
    destruct (body response) as [[chunks failure]|] eqn:Hb; [|reflexivity].
    symmetry. now apply consume_chunking. }
  rewrite H. reflexivity.
Qed.

(** X5.  The value submitQuery returns never depends on what was
    streamed: it is the currentQuery the callback closed over when the
    try block reaches its end, and null otherwise (also when resources
    are not loaded). *)
Theorem returned_value_is_the_closed_over_query {engine : Engine}
        (env : Closure) (fetch : Request -> js_error + Response)
        (question : jsval) (ss : Session) :
  returned (submitQuery env fetch question ss) =
  if truthy (isResourcesLoaded env)
     && completed (fetch (query_request question (numDocs env)))
  then closed_currentQuery env else None.
Proof.
  unfold submitQuery, completed.
  destruct (truthy (isResourcesLoaded env)); cbn [negb andb]; [|reflexivity].
  destruct (fetch (query_request question (numDocs env))) as [err|response];
    [reflexivity|].
  unfold consume.
  destruct (ok response); cbn [negb andb]; [|reflexivity].
  destruct (body response) as [[chunks failure]|]; [|reflexivity].
  destruct (read_loop process_line TextDecoder.fresh [] chunks
              (begin_query question ss)) as [[d buffer] ss1].
  destruct failure; reflexivity.
Qed.

Lemma begin_query_live (asked : jsval) (s : Store) :
  begin_query asked (Live s) =
  Live (mkStore true JNull (Some (initial_query asked))).
Proof. reflexivity. Qed.

(** X6.  Whatever the server sends, a submitQuery that went to the
    network ends, when the component is still alive, with a query that
    carries the question asked and with loading false. *)
Theorem question_kept_and_loading_cleared {engine : Engine}
        (env : Closure) (fetch : Request -> js_error + Response)
        (asked : jsval) (s s' : Store) :
  truthy (isResourcesLoaded env) = true ->
  session (submitQuery env fetch asked (Live s)) = Live s' ->
  isLoading s' = false /\
  exists q', currentQuery s' = Some q' /\ question q' = asked.
Proof.
  intros Hl. unfold submitQuery. rewrite Hl. cbn [negb].
  rewrite begin_query_live.
  destruct (fetch (query_request asked (numDocs env))) as [err|response].
  { cbn. intros H. inversion H. cbn. eauto. }
  destruct (consume response (Live (mkStore true JNull (Some (initial_query asked)))))
    as [ss1 thrown] eqn:Hc.
  assert (Hkey : forall s1, ss1 = Live s1 ->
                   exists q1, currentQuery s1 = Some q1 /\ question q1 = asked).
  { intros s1 Hs1.
    destruct (consume_advance response
                (mkStore true JNull (Some (initial_query asked)))
                ss1 thrown (initial_query asked) s1
                eq_refl Hc Hs1) as [A|[_ ->]].
    - destruct A as (q0 & q1 & H0 & H1 & Hq & _).
      inversion H0. subst q0. eauto.
    - cbn. eauto. }
  destruct ss1 as [s1| |]; destruct thrown; cbn; try discriminate;
    intros H; inversion H; cbn; split; auto.
Qed.

Lemma question_kept_and_loading_cleared_witness :
  isLoading (mkStore false (JStr (lit "timeout"))
               (Some (set_streamError (JStr (lit "timeout")) (initial_query JNull))))
    = false
  /\ exists q',
       currentQuery (mkStore false (JStr (lit "timeout"))
                       (Some (set_streamError (JStr (lit "timeout"))
                                              (initial_query JNull)))) = Some q'
       /\ question q' = JNull.
Proof.
  apply (question_kept_and_loading_cleared loaded
           (fun _ => inr (response_of line_timeout)) JNull idle).
  - reflexivity.
  - vm_compute. reflexivity.
Defined.

(** X7.  When the response was read to its end, or refused for its
    status, the surfaced error and the streamError of the query end as
    the same value: both null, or both the same truthy message - no line
    and no flush sets one without the other or clears either. *)
Theorem surfaced_error_is_the_streamError {engine : Engine}
        (env : Closure) (fetch : Request -> js_error + Response)
        (asked : jsval) (s s' : Store) (response : Response) :
  truthy (isResourcesLoaded env) = true ->
  fetch (query_request asked (numDocs env)) = inr response ->
  (ok response = false \/ exists chunks, body response = Some (chunks, None)) ->
  session (submitQuery env fetch asked (Live s)) = Live s' ->
  errors_agree s'.
Proof.
  intros Hl Hf Hcase. unfold submitQuery. rewrite Hl, Hf. cbn [negb].
  rewrite begin_query_live.
  destruct (consume response (Live (mkStore true JNull (Some (initial_query asked)))))
    as [ss1 thrown] eqn:Hc.
  destruct Hcase as [Hok|[chunks Hb]].
  - revert Hc. unfold consume. rewrite Hok. cbn.
    intros Hc. inversion Hc. subst. cbn. intros H. inversion H.
    unfold errors_agree. cbn. eexists. split; [reflexivity|].
    split; [reflexivity|]. right. reflexivity.
  - destruct (ok response) eqn:Hok.
    2:{ revert Hc. unfold consume. rewrite Hok. cbn.
        intros Hc. inversion Hc. subst. cbn. intros H. inversion H.
        unfold errors_agree. cbn. eexists. split; [reflexivity|].
        split; [reflexivity|]. right. reflexivity. }
    pose proof (consume_no_exception response chunks
                  (Live (mkStore true JNull (Some (initial_query asked)))) Hok Hb)
      as Hnone.
    rewrite Hc in Hnone. cbn in Hnone. subst thrown.
    destruct ss1 as [s1| |]; cbn; try discriminate.
    intros H. inversion H.
    destruct (consume_advance response
                (mkStore true JNull (Some (initial_query asked)))
                (Live s1) None (initial_query asked) s1
                eq_refl Hc eq_refl) as [A|[Hno _]]; [|congruence].
    destruct A as (q0 & q1 & Hq0 & Hq1 & _ & He & _).
    inversion Hq0. subst q0. unfold errors_agree. cbn.
    exists q1. split; [exact Hq1|].
    destruct He as [[Ea Eb]|(m & Hm & Ea & Eb)]; cbn in Ea, Eb.
    + rewrite Ea, Eb. auto.
    + rewrite Ea, Eb. rewrite Hm. auto.
Qed.

Lemma surfaced_error_is_the_streamError_witness :
  errors_agree (mkStore false (JStr (lit "timeout"))
                  (Some (set_streamError (JStr (lit "timeout"))
                                         (initial_query JNull)))).
Proof.
  apply (surfaced_error_is_the_streamError loaded
           (fun _ => inr (response_of line_timeout)) JNull idle _
           (response_of line_timeout)).
  - reflexivity.
  - reflexivity.
  - right. eexists. reflexivity.
  - vm_compute. reflexivity.
Defined.

(** ** A malformed line among valid ones *)

(** C4.  A line that fails to decode, anywhere among the lines of a
    query, does not stop the lines after it.  When those carry events,
    the result is the one of the same lines without the malformed one,
    except that the surfaced error and the streamError are the text
    "stream_parse_error: " followed by the engine's message for the
    SyntaxError of the line (by the name SyntaxError when that message
    is empty).  No exception leaves the loop: a submitQuery whose body
    holds these lines reaches its return, and its catch writes
    nothing. *)
Theorem malformed_line_is_skipped {engine : Engine}
        (before after : list jsstring) (bad : jsstring) (e : js_error)
        (ss : Session) :
  querying ss ->
  nonempty (trim bad) = true -> decode bad = Throw e ->
  Forall (fun l => event_of l <> None) after ->
  let reason := if nonempty (wording (NotValidJSON bad))
                then wording (NotValidJSON bad) else lit "SyntaxError" in
  let msg := JStr (lit "stream_parse_error: " ++ reason) in
  process_lines (before ++ bad :: after) ss =
    record_error msg (process_lines (before ++ after) ss)
  /\ (forall s', process_lines (before ++ bad :: after) ss = Live s' ->
        exists s0,
          process_lines (before ++ after) ss = Live s0 /\
          s' = mkStore (isLoading s0) msg
                       (Some (set_streamError msg (spread (currentQuery s0)))))
  /\ (forall env fetch question ss0 response chunks rest,
        truthy (isResourcesLoaded env) = true ->
        fetch (query_request question (numDocs env)) = inr response ->
        ok response = true -> body response = Some (chunks, None) ->
        List.concat chunks = bytes_of (joined (before ++ bad :: after) rest) ->
        Forall plain (before ++ bad :: after) -> plain rest ->
        submitQuery env fetch question ss0 =
        mkOutcome (closed_currentQuery env)
          (setIsLoading false
             (process_final rest
                (record_error msg
                   (process_lines (before ++ after)
                                  (begin_query question ss0)))))
          [query_request question (numDocs env)]).
Proof.
  intros Hq Hn Hd Hall reason msg.
  assert (Hmsg : JStr (parseMsg e) = msg).
  { rewrite (decode_throws bad e Hd). unfold parseMsg, msg, reason.
    now rewrite describe_raise. }
  assert (Heq : forall st, querying st ->
            process_lines (before ++ bad :: after) st =
            record_error msg (process_lines (before ++ after) st)).
  { intros st Hst. rewrite <- Hmsg. now apply malformed_line_dropped. }
  split; [now apply Heq|]. split.
  - intros s' Hs'. rewrite (Heq ss Hq) in Hs'.
    destruct (process_lines (before ++ after) ss) as [s0| |]; try discriminate.
    rewrite record_error_live in Hs'. inversion Hs'. eauto.
  - intros env fetch question ss0 response chunks rest
           Hl Hf Hok Hb Hbytes Hlines Hrest.
    unfold submitQuery. rewrite Hl, Hf. cbn [negb].
    rewrite (consume_joined response chunks None (before ++ bad :: after) rest)
      by assumption.
    rewrite (Heq _ (querying_begin_query question ss0)). reflexivity.
Qed.

Lemma malformed_line_is_skipped_witness :
  process_lines ([line_documents] ++ line_malformed :: [line_answer])
                (begin_query JNull (Live idle)) =
  Live (mkStore false
          (JStr (lit "stream_parse_error: Unexpected end of JSON input"))
          (Some (mkQuery JNull
                   (JArr [JObj [(lit "content", JStr (lit "A"))];
                          JObj [(lit "content", JStr (lit "B"))]])
                   (JStr (lit "done")) (JObj [(lit "v", JInt 1)])
                   (JStr (lit "stream_parse_error: Unexpected end of JSON input"))
                   (JInt 5) (JInt 3)))).
Proof.
  destruct (malformed_line_is_skipped [line_documents] [line_answer]
              line_malformed (raise (NotValidJSON line_malformed))
              (begin_query JNull (Live idle))) as [H _].
  - apply querying_begin_query.
  - vm_compute. reflexivity.
  - vm_compute. reflexivity.
  - repeat constructor; vm_compute; discriminate.
  - rewrite H. vm_compute. reflexivity.
Defined.

(** ** Objects as property lists *)

Lemma str_eqb_refl (a : jsstring) : str_eqb a a = true.
Proof. induction a as [|x a IH]; simpl; [reflexivity|]. now rewrite N.eqb_refl. Qed.

Lemma obj_get_set_same k v o : obj_get k (obj_set k v o) = Some v.
Proof.
  induction o as [|[k1 v1] o IH]; simpl.
  - now rewrite str_eqb_refl.
  - destruct (str_eqb k k1) eqn:E; simpl.
    + now rewrite str_eqb_refl.
    + now rewrite E.
Qed.

Lemma obj_get_set_other k k' v o :
  str_eqb k k' = false -> obj_get k (obj_set k' v o) = obj_get k o.
Proof.
  intros Hk. induction o as [|[k1 v1] o IH]; simpl.
  - now rewrite Hk.
  - destruct (str_eqb k' k1) eqn:E; simpl.
    + apply str_eqb_eq in E. subst k1. now rewrite Hk.
    + now rewrite IH.
Qed.

Lemma obj_set_set k v1 v2 o : obj_set k v2 (obj_set k v1 o) = obj_set k v2 o.
Proof.
  induction o as [|[k1 w] o IH]; simpl.
  - now rewrite str_eqb_refl.
  - destruct (str_eqb k k1) eqn:E; simpl.
    + now rewrite str_eqb_refl.
    + now rewrite E, IH.
Qed.

(** ** The highlights merge *)

Lemma as_array_ok {engine : Engine} owner method v items :
  as_array owner method v = Ok items -> v = JArr items.
Proof. destruct v; simpl; intros H; inversion H; reflexivity. Qed.

Lemma js_or_default_twice (x : jsval) :
  js_or (js_or x (JArr [])) (JArr []) = js_or x (JArr []).
Proof. unfold js_or. destruct (truthy x) eqn:E; [now rewrite E|reflexivity]. Qed.

(** What [highlightMap] holds under a key once it is filled: the
    highlights of the last entry filed under it. *)
Lemma fill_lookup {engine : Engine} entries :
  forall m hm k,
    fill_highlightMap entries m = Ok hm ->
    obj_get k hm =
    match last_entry k entries with
    | Some entry => Some (js_or (prop entry (lit "highlights")) (JArr []))
    | None => obj_get k m
    end.
Proof.
  induction entries as [|entry rest IH]; intros m hm k H.
  - inversion H. reflexivity.
  - cbn [fill_highlightMap] in H. cbn [last_entry]. unfold highlight_key.
    destruct (get entry "content") as [content| |] eqn:Ec;
      cbn [bind] in H |- *; try discriminate.
    destruct (get entry "highlights") as [hl| |] eqn:Eh;
      cbn [bind] in H |- *; try discriminate.
    destruct (ToString content) as [key| |] eqn:Ek;
      cbn [bind] in H |- *; try discriminate.
    destruct (str_eqb key (lit "__proto__")); [discriminate|].
    rewrite (IH _ _ k H).
    destruct (last_entry k rest); [reflexivity|].
    apply get_ok in Eh. subst hl.
    destruct (str_eqb k key) eqn:E.
    + apply str_eqb_eq in E. subst key. apply obj_get_set_same.
    + now apply obj_get_set_other.
Qed.

(** Each document, in place, with the highlights filed under its key. *)
Lemma attach_by_last_entry {engine : Engine} entries hm :
  fill_highlightMap entries [] = Ok hm ->
  forall docs docs',
    attach_highlights hm docs = Ok docs' ->
    Forall2 (fun d d' =>
               exists k, highlight_key d = Ok k /\
                 d' = JObj (obj_set (lit "highlights") (highlights_for k entries)
                                    (own_properties d)))
            docs docs'.
Proof.
  intros Hfill. induction docs as [|d docs IH]; intros docs' H.
  - inversion H. constructor.
  - cbn [attach_highlights] in H.
    destruct (get d "content") as [content| |] eqn:Ec;
      cbn [bind] in H; try discriminate.
    destruct (ToString content) as [key| |] eqn:Ek;
      cbn [bind] in H; try discriminate.
    destruct (lookup_highlights hm key) as [found| |] eqn:El;
      cbn [bind] in H; try discriminate.
    destruct (attach_highlights hm docs) as [rest'| |];
      cbn [bind] in H; try discriminate.
    inversion H. subst docs'. constructor; [|now apply IH].
    exists key. split.
    { unfold highlight_key. rewrite Ec. exact Ek. }
    do 2 f_equal. unfold highlights_for.
    unfold lookup_highlights in El. rewrite (fill_lookup _ _ _ key Hfill) in El.
    destruct (last_entry key entries) as [entry|].
    + inversion El. apply js_or_default_twice.
    + simpl in El. destruct (inherited key); inversion El. reflexivity.
Qed.

Lemma merge_highlights_parts {engine : Engine} data p r :
  merge_highlights data (Some p) = Ok r ->
  exists entries hm docs docs',
    prop data (lit "data") = JArr entries /\
    fill_highlightMap entries [] = Ok hm /\
    documents p = JArr docs /\
    attach_highlights hm docs = Ok docs' /\
    r = Some (mkQuery (question p) (JArr docs') (answer p)
                      (structured_answer p) (streamError p)
                      (next_k data "requested_k" requestedK (Some p))
                      (next_k data "effective_k" effectiveK (Some p))).
Proof.
  unfold merge_highlights.
  destruct (as_array _ _ (prop data (lit "data"))) as [entries| |] eqn:Ea;
    cbn [bind]; try discriminate.
  destruct (fill_highlightMap entries []) as [hm| |] eqn:Ef;
    cbn [bind]; try discriminate.
  destruct (as_array _ _ (documents p)) as [docs| |] eqn:Ed;
    cbn [bind]; try discriminate.
  destruct (attach_highlights hm docs) as [docs'| |] eqn:Et;
    cbn [bind]; try discriminate.
  intros H. inversion H.
  apply as_array_ok in Ea, Ed.
  exists entries, hm, docs, docs'. auto.
Qed.

Lemma Forall2_at {A B : Type} (R : A -> B -> Prop) l l' :
  Forall2 R l l' ->
  forall i a b, nth_error l i = Some a -> nth_error l' i = Some b -> R a b.
Proof.
  induction 1 as [|x y l l' Hxy Hall IH]; intros [|i] a b Ha Hb;
    simpl in *; try discriminate.
  - inversion Ha. inversion Hb. subst. exact Hxy.
  - eapply IH; eauto.
Qed.

(** X8.  A highlights event maps the documents in place: as many
    documents, in the same order, each with all its own properties and
    its highlights property set to the highlights of the last entry of
    the event filed under its content - an empty list when no entry has
    that content or the entry has no highlights; the question, the
    answer and the streamError are not touched. *)
Theorem highlights_by_last_entry {engine : Engine} (data : jsval) (p r : QueryResult) :
  merge_highlights data (Some p) = Ok (Some r) ->
  exists entries docs docs',
    prop data (lit "data") = JArr entries /\
    documents p = JArr docs /\ documents r = JArr docs' /\
    List.length docs' = List.length docs /\
    Forall2 (fun d d' =>
               exists k, highlight_key d = Ok k /\
                 d' = JObj (obj_set (lit "highlights") (highlights_for k entries)
                                    (own_properties d)))
            docs docs' /\
    question r = question p /\ answer r = answer p /\
    structured_answer r = structured_answer p /\
    streamError r = streamError p.
Proof.
  intros H. apply merge_highlights_parts in H.
  destruct H as (entries & hm & docs & docs' & Hd & Hf & Hp & Ha & Hr).
  inversion Hr. subst r. clear Hr.
  pose proof (attach_by_last_entry entries hm Hf docs docs' Ha) as HF.
  exists entries, docs, docs'. cbn.
  repeat split; auto.
  symmetry. eapply Forall2_length; eauto.
Qed.

Lemma highlights_by_last_entry_witness :
  exists entries docs docs',
    prop (JObj [(lit "type", JStr (lit "highlights"));
                (lit "data", JArr [JObj [(lit "content", JStr (lit "A"));
                                         (lit "highlights", JArr [JStr (lit "x")])];
                                   JObj [(lit "content", JStr (lit "A"));
                                         (lit "highlights", JArr [JStr (lit "y")])]])])
         (lit "data") = JArr entries /\
    JArr [JObj [(lit "content", JStr (lit "A"))];
          JObj [(lit "content", JStr (lit "B"))]] = JArr docs /\
    JArr [JObj [(lit "content", JStr (lit "A")); (lit "highlights", JArr [JStr (lit "y")])];
          JObj [(lit "content", JStr (lit "B")); (lit "highlights", JArr [])]]
      = JArr docs' /\
    List.length docs' = List.length docs.
Proof.
  destruct (highlights_by_last_entry
              (JObj [(lit "type", JStr (lit "highlights"));
                     (lit "data", JArr [JObj [(lit "content", JStr (lit "A"));
                                              (lit "highlights", JArr [JStr (lit "x")])];
                                        JObj [(lit "content", JStr (lit "A"));
                                              (lit "highlights", JArr [JStr (lit "y")])]])])
              (mkQuery JNull
                 (JArr [JObj [(lit "content", JStr (lit "A"))];
                        JObj [(lit "content", JStr (lit "B"))]])
                 JNull JNull JNull JNull JNull)
              (mkQuery JNull
                 (JArr [JObj [(lit "content", JStr (lit "A"));
                              (lit "highlights", JArr [JStr (lit "y")])];
                        JObj [(lit "content", JStr (lit "B"));
                              (lit "highlights", JArr [])]])
                 JNull JNull JNull JNull JNull))
    as (entries & docs & docs' & H1 & H2 & H3 & H4 & _).
  - vm_compute. reflexivity.
  - exists entries, docs, docs'. cbn in H2, H3. auto.
Defined.

(** X9.  Documents with the same content are given the same highlights
    by a highlights event, wherever they stand in the list. *)
Theorem same_content_same_highlights {engine : Engine}
        (data : jsval) (p r : QueryResult) (docs docs' : list jsval)
        (i j : nat) (d1 d2 d1' d2' : jsval) :
  merge_highlights data (Some p) = Ok (Some r) ->
  documents p = JArr docs -> documents r = JArr docs' ->
  nth_error docs i = Some d1 -> nth_error docs j = Some d2 ->
  nth_error docs' i = Some d1' -> nth_error docs' j = Some d2' ->
  prop d1 (lit "content") = prop d2 (lit "content") ->
  prop d1' (lit "highlights") = prop d2' (lit "highlights").
Proof.
  intros H Hp Hr Hi Hj Hi' Hj' Hc.
  apply merge_highlights_parts in H.
  destruct H as (entries & hm & ds & ds' & _ & Hf & Hp' & Ha & Hr').
  inversion Hr'. subst r. cbn in Hr.
  rewrite Hp in Hp'. inversion Hp'. inversion Hr. subst ds ds'.
  pose proof (attach_by_last_entry entries hm Hf docs docs' Ha) as HF.
  destruct (Forall2_at _ _ _ HF i d1 d1' Hi Hi') as (k1 & Hk1 & ->).
  destruct (Forall2_at _ _ _ HF j d2 d2' Hj Hj') as (k2 & Hk2 & ->).
  cbn [prop]. rewrite !obj_get_set_same.
  assert (Hk : k1 = k2).
  { unfold highlight_key in Hk1, Hk2.
    destruct (get d1 "content") as [c1| |] eqn:E1; cbn [bind] in Hk1; try discriminate.
    destruct (get d2 "content") as [c2| |] eqn:E2; cbn [bind] in Hk2; try discriminate.
    apply get_ok in E1, E2. subst c1 c2. rewrite Hc in Hk1. congruence. }
  now subst k2.
Qed.

Lemma same_content_same_highlights_witness :
  prop (JObj [(lit "content", JStr (lit "A")); (lit "highlights", JArr [JStr (lit "x")])])
       (lit "highlights") =
  prop (JObj [(lit "content", JStr (lit "A")); (lit "n", JInt 2);
              (lit "highlights", JArr [JStr (lit "x")])])
       (lit "highlights").
Proof.
  apply (same_content_same_highlights
           (JObj [(lit "type", JStr (lit "highlights"));
                  (lit "data", JArr [JObj [(lit "content", JStr (lit "A"));
                                           (lit "highlights", JArr [JStr (lit "x")])]])])
           (mkQuery JNull
              (JArr [JObj [(lit "content", JStr (lit "A"))];
                     JObj [(lit "content", JStr (lit "A")); (lit "n", JInt 2)]])
              JNull JNull JNull JNull JNull)
           (mkQuery JNull
              (JArr [JObj [(lit "content", JStr (lit "A"));
                           (lit "highlights", JArr [JStr (lit "x")])];
                     JObj [(lit "content", JStr (lit "A")); (lit "n", JInt 2);
                           (lit "highlights", JArr [JStr (lit "x")])]])
              JNull JNull JNull JNull JNull)
           [JObj [(lit "content", JStr (lit "A"))];
            JObj [(lit "content", JStr (lit "A")); (lit "n", JInt 2)]]
           [JObj [(lit "content", JStr (lit "A"));
                  (lit "highlights", JArr [JStr (lit "x")])];
            JObj [(lit "content", JStr (lit "A")); (lit "n", JInt 2);
                  (lit "highlights", JArr [JStr (lit "x")])]]
           0%nat 1%nat
           (JObj [(lit "content", JStr (lit "A"))])
           (JObj [(lit "content", JStr (lit "A")); (lit "n", JInt 2)])).
  - vm_compute. reflexivity.
  - reflexivity.
  - reflexivity.
  - reflexivity.
  - reflexivity.
  - reflexivity.
  - reflexivity.
  - reflexivity.
Defined.

Lemma attach_after_attach {engine : Engine} hm1 hm2 docs :
  forallb is_object docs = true ->
  forall docs1, attach_highlights hm1 docs = Ok docs1 ->
    attach_highlights hm2 docs1 = attach_highlights hm2 docs.
Proof.
  induction docs as [|d docs IH]; intros Hobj docs1 H.
  - inversion H. reflexivity.
  - cbn [forallb] in Hobj. apply andb_prop in Hobj. destruct Hobj as [Hd Hobj].
    destruct d as [| | | | | |o]; try discriminate.
    cbn [attach_highlights] in H |- *.
    cbn [get nullish bind] in H |- *.
    destruct (ToString (prop (JObj o) (lit "content"))) as [key| |] eqn:Ek;
      cbn [bind] in H; try discriminate.
    destruct (lookup_highlights hm1 key) as [found| |];
      cbn [bind] in H; try discriminate.
    destruct (attach_highlights hm1 docs) as [rest1| |] eqn:Er;
      cbn [bind] in H; try discriminate.
    inversion H. subst docs1.
    cbn [attach_highlights get nullish bind].
    assert (Hc : prop (JObj (obj_set (lit "highlights") (js_or found (JArr [])) o))
                      (lit "content")
                 = prop (JObj o) (lit "content")).
    { cbn [prop]. now rewrite obj_get_set_other by reflexivity. }
    rewrite Hc, Ek. cbn [bind].
    destruct (lookup_highlights hm2 key) as [found2| |]; cbn [bind]; try reflexivity.
    rewrite (IH Hobj rest1 eq_refl).
    cbn [own_properties]. now rewrite obj_set_set.
Qed.

(** X10.  Highlights do not accumulate: on documents that are objects,
    a highlights event after an earlier one gives the documents the
    later event alone would give - a document the later event does not
    mention loses the highlights it had. *)
Theorem later_highlights_replace_earlier {engine : Engine}
        (first later : jsval) (p p1 r : QueryResult) (docs : list jsval) :
  documents p = JArr docs -> forallb is_object docs = true ->
  merge_highlights first (Some p) = Ok (Some p1) ->
  merge_highlights later (Some p) = Ok (Some r) ->
  exists r1, merge_highlights later (Some p1) = Ok (Some r1) /\
             documents r1 = documents r.
Proof.
  intros Hp Hobj H1 H2.
  apply merge_highlights_parts in H1.
  destruct H1 as (e1 & hm1 & ds1 & docs1 & _ & _ & Hp1 & Ha1 & Hr1).
  rewrite Hp in Hp1. inversion Hp1. subst ds1. inversion Hr1. subst p1.
  pose proof H2 as H2'. apply merge_highlights_parts in H2'.
  destruct H2' as (e2 & hm2 & ds2 & docs2 & Hd2 & Hf2 & Hp2 & Ha2 & Hr2).
  rewrite Hp in Hp2. inversion Hp2. subst ds2. inversion Hr2. subst r.
  unfold merge_highlights. rewrite Hd2. cbn [as_array bind]. rewrite Hf2.
  cbn [bind documents as_array].
  rewrite (attach_after_attach hm1 hm2 docs Hobj docs1 Ha1), Ha2. cbn [bind].
  eexists. split; reflexivity.
Qed.

Lemma later_highlights_replace_earlier_witness :
  exists r1,
    merge_highlights
      (JObj [(lit "type", JStr (lit "highlights")); (lit "data", JArr [])])
      (Some (mkQuery JNull
               (JArr [JObj [(lit "content", JStr (lit "A"));
                            (lit "highlights", JArr [JStr (lit "x")])]])
               JNull JNull JNull JNull JNull)) = Ok (Some r1)
    /\ documents r1 =
       JArr [JObj [(lit "content", JStr (lit "A")); (lit "highlights", JArr [])]].
Proof.
  apply (later_highlights_replace_earlier
           (JObj [(lit "type", JStr (lit "highlights"));
                  (lit "data", JArr [JObj [(lit "content", JStr (lit "A"));
                                           (lit "highlights", JArr [JStr (lit "x")])]])])
           (JObj [(lit "type", JStr (lit "highlights")); (lit "data", JArr [])])
           (mkQuery JNull (JArr [JObj [(lit "content", JStr (lit "A"))]])
                    JNull JNull JNull JNull JNull)
           (mkQuery JNull
              (JArr [JObj [(lit "content", JStr (lit "A"));
                           (lit "highlights", JArr [JStr (lit "x")])]])
              JNull JNull JNull JNull JNull)
           (mkQuery JNull
              (JArr [JObj [(lit "content", JStr (lit "A"));
                           (lit "highlights", JArr [])]])
              JNull JNull JNull JNull JNull)
           [JObj [(lit "content", JStr (lit "A"))]]).
  - reflexivity.
  - reflexivity.
  - vm_compute. reflexivity.
  - vm_compute. reflexivity.
Defined.

(** ** Events, line by line *)

(** A line that carries an event goes to the handler of its type. *)
Lemma process_line_event {engine : Engine} line data (ss : Session) :
  event_of line = Some data ->
  process_line line ss =
  if has_type data "documents" then setCurrentQuery (merge_documents data) ss
  else if has_type data "highlights" then setCurrentQuery (merge_highlights data) ss
  else if has_type data "answer" then
    if truthy (prop data (lit "done"))
    then setIsLoading false (setCurrentQuery (merge_answer data) ss)
    else setCurrentQuery (merge_answer data) ss
  else ss.
Proof.
  unfold event_of, process_line.
  destruct (nonempty (trim line)); [|discriminate].
  destruct (decode line) as [d| |]; try discriminate.
  destruct (get d "error") as [err| |] eqn:Hg; try discriminate.
  destruct (truthy err) eqn:Ht; [discriminate|].
  intros H. inversion H. subst d.
  cbn [negb bind]. unfold handle_event. rewrite Hg. cbn [bind]. rewrite Ht.
  unfold has_type.
  destruct (is_string _ (lit "documents")); [reflexivity|].
  destruct (is_string _ (lit "highlights")); [reflexivity|].
  destruct (is_string _ (lit "answer")); [|reflexivity].
  destruct (truthy (prop data (lit "done"))); reflexivity.
Qed.

Lemma passed_over_line {engine : Engine} line (ss : Session) :
  passed_over line = true -> process_line line ss = ss.
Proof.
  unfold passed_over, blank. intros H.
  destruct (negb (nonempty (trim line))) eqn:Hb.
  - unfold process_line. now rewrite Hb.
  - cbn [orb] in H.
    destruct (event_of line) as [data|] eqn:He; [|discriminate].
    rewrite (process_line_event line data ss He).
    apply negb_true_iff in H. apply orb_false_iff in H. destruct H as [H Ha].
    apply orb_false_iff in H. destruct H as [Hd Hh].
    now rewrite Hd, Hh, Ha.
Qed.

Lemma has_type_false_of data (a b : string) :
  has_type data a = true -> lit a <> lit b -> has_type data b = false.
Proof.
  intros Ha Hne. destruct (has_type data b) eqn:Hb; [|reflexivity].
  elim Hne. eapply has_type_exclusive; eauto.
Qed.

(** X11.  Blank lines, and lines that decode to a value without truthy
    error and without one of the types documents, highlights and answer -
    an object of another type, an array, a string, a number, a boolean -
    leave no trace: dropping them all from the lines of a query changes
    nothing of its result. *)
Theorem passed_over_lines_leave_no_trace {engine : Engine}
      (lines : list jsstring) (ss : Session) :
  process_lines (filter (fun line => negb (passed_over line)) lines) ss =
  process_lines lines ss.
Proof.
  revert ss. induction lines as [|l lines IH]; intros ss; [reflexivity|].
  cbn [filter]. destruct (passed_over l) eqn:Hp; cbn [negb].
  - rewrite process_lines_cons, (passed_over_line l ss Hp). apply IH.
  - rewrite !process_lines_cons. apply IH.
Qed.

(** X12.  The documents list changes in two ways only: a documents
    event replaces it by the data of the event, whatever that is, and a
    highlights event maps it to a list of the same length; every other
    line leaves it as it is. *)
Theorem documents_replaced_or_mapped {engine : Engine}
        (line : jsstring) (s s' : Store) (q : QueryResult) :
  currentQuery s = Some q ->
  process_line line (Live s) = Live s' ->
  exists q', currentQuery s' = Some q' /\
    match event_of line with
    | Some data =>
        if has_type data "documents" then documents q' = prop data (lit "data")
        else if has_type data "highlights" then
          exists docs docs',
            documents q = JArr docs /\ documents q' = JArr docs' /\
            List.length docs' = List.length docs
        else documents q' = documents q
    | None => documents q' = documents q
    end.
Proof.
  intros Hq Hstep.
  destruct (event_of line) as [data|] eqn:He.
  - rewrite (process_line_event line data _ He) in Hstep.
    destruct (has_type data "documents").
    { apply setCurrentQuery_live in Hstep. destruct Hstep as (r & Hr & ->).
      rewrite Hq in Hr. inversion Hr. cbn. eauto. }
    destruct (has_type data "highlights").
    { apply setCurrentQuery_live in Hstep. destruct Hstep as (r & Hr & ->).
      rewrite Hq in Hr. apply merge_highlights_parts in Hr.
      destruct Hr as (entries & hm & docs & docs' & _ & Hf & Hp & Ha & ->).
      cbn. eexists. split; [reflexivity|]. cbn.
      exists docs, docs'. repeat split; auto.
      pose proof (attach_by_last_entry entries hm Hf docs docs' Ha) as HF.
      symmetry. eapply Forall2_length; eauto. }
    destruct (has_type data "answer").
    { assert (H : exists l, s' = mkStore l (error s)
                (Some (mkQuery (question q) (documents q)
                      (prop (prop data (lit "data")) (lit "answer"))
                      (prop (prop data (lit "data")) (lit "structured_answer"))
                      (streamError q) (requestedK q) (effectiveK q)))).
      { destruct (truthy (prop data (lit "done"))).
        - apply setIsLoading_live in Hstep. destruct Hstep as (s1 & H1 & ->).
          apply setCurrentQuery_live in H1. destruct H1 as (r & Hr & ->).
          rewrite Hq in Hr. apply merge_answer_ok in Hr. subst r. cbn. eauto.
        - apply setCurrentQuery_live in Hstep. destruct Hstep as (r & Hr & ->).
          rewrite Hq in Hr. apply merge_answer_ok in Hr. subst r. cbn. eauto. }
      destruct H as (l & ->). cbn. eauto. }
    inversion Hstep. subst. eauto.
  - destruct (process_line_effect line s q s' Hq Hstep) as (q' & Hq' & Heff).
    exists q'. split; [exact Hq'|].
    destruct Heff as [Hno ->|msg Hev ->|data Hev Ht ->|data docs Hev Ht ->
                      |data Hev Ht Hd Hh ->]; try reflexivity; congruence.
Qed.

Lemma documents_replaced_or_mapped_witness :
  exists q',
    currentQuery (mkStore true JNull
                    (Some (mkQuery JNull JUndefined JNull JNull JNull JNull JNull)))
      = Some q'
    /\ documents q' = JUndefined.
Proof.
  destruct (documents_replaced_or_mapped
              (wire "{'type':'documents'}")
              (mkStore true JNull (Some (initial_query JNull)))
              (mkStore true JNull
                 (Some (mkQuery JNull JUndefined JNull JNull JNull JNull JNull)))
              (initial_query JNull))
    as (q' & Hq' & H).
  - reflexivity.
  - vm_compute. reflexivity.
  - exists q'. split; [exact Hq'|]. inversion Hq'. reflexivity.
Defined.

(** X13.  The updaters and what makes them throw: the documents updater
    never does; the answer updater throws exactly when the event has no
    data (missing or null), whatever the previous query; the highlights
    updater cannot return on a null previous query. *)
Theorem updater_exceptions {engine : Engine} :
  (forall data prev, exists r, merge_documents data prev = Ok (Some r))
  /\ (forall data prev,
        (exists e, merge_answer data prev = Throw e) <->
        nullish (prop data (lit "data")) = true)
  /\ (forall data prev,
        nullish (prop data (lit "data")) = false ->
        exists r, merge_answer data prev = Ok (Some r))
  /\ (forall data r, merge_highlights data None <> Ok r).
Proof.
  split; [|split; [|split]].
  - intros data prev. eexists. reflexivity.
  - intros data prev. unfold merge_answer.
    destruct (prop data (lit "data")); cbn; split;
      try (intros [? ?]; discriminate); try discriminate; eauto.
  - intros data prev. unfold merge_answer.
    destruct (prop data (lit "data")); cbn; try discriminate; eauto.
  - intros data r. unfold merge_highlights.
    destruct (as_array _ _ (prop data (lit "data"))); cbn [bind]; try discriminate.
    destruct (fill_highlightMap _ _); cbn [bind]; discriminate.
Qed.

(** X14.  An object of type error without error message is treated in
    two ways: as a line in the middle of the stream it is passed over,
    as the unterminated end of the body it is recorded as "Unknown
    streaming error" and clears loading. *)
Theorem error_type_without_message {engine : Engine}
        (line : jsstring) (data : jsval) (s : Store) :
  nonempty (trim line) = true ->
  decode line = Ok data ->
  has_type data "error" = true ->
  truthy (prop data (lit "error")) = false ->
  process_line line (Live s) = Live s
  /\ process_final line (Live s) =
     Live (mkStore false (JStr (lit "Unknown streaming error"))
             (Some (set_streamError (JStr (lit "Unknown streaming error"))
                                    (spread (currentQuery s))))).
Proof.
  intros Hn Hd Ht He.
  assert (Hg : forall k, get data k = Ok (prop data (lit k))).
  { intros k. unfold has_type, prop in Ht. destruct data; try discriminate.
    reflexivity. }
  split.
  - apply passed_over_line. unfold passed_over, blank, event_of.
    rewrite Hn, Hd, Hg, He. cbn [negb orb].
    rewrite (has_type_false_of data "error" "documents") by (assumption || discriminate).
    rewrite (has_type_false_of data "error" "highlights") by (assumption || discriminate).
    rewrite (has_type_false_of data "error" "answer") by (assumption || discriminate).
    reflexivity.
  - unfold process_final. rewrite Hn, Hd. cbn [bind].
    unfold handle_final. rewrite Hg. cbn [bind].
    fold (has_type data "error"). rewrite Ht. cbn [orb].
    fold (has_type data "answer").
    rewrite (has_type_false_of data "error" "answer") by (assumption || discriminate).
    cbn [andb]. unfold js_or. rewrite He. reflexivity.
Qed.

Lemma error_type_without_message_witness :
  process_line (wire "{'type':'error'}") (Live idle) = Live idle.
Proof.
  apply (error_type_without_message (wire "{'type':'error'}")
           (JObj [(lit "type", JStr (lit "error"))]) idle).
  - vm_compute. reflexivity.
  - vm_compute. reflexivity.
  - reflexivity.
  - reflexivity.
Defined.

(** X15.  A line that is the JSON text null parses, yet it is reported
    as a parse error: reading a property of null throws a TypeError,
    which the handler of parse failures records with the engine's
    message for that read (or the name TypeError when the message is
    empty).  In the middle of the stream the property read is error, in
    the final flush it is type, so the two messages differ. *)
Theorem null_line_is_a_parse_error {engine : Engine} (line : jsstring) (ss : Session) :
  nonempty (trim line) = true ->
  decode line = Ok JNull ->
  let shown := fun text : jsstring =>
                 if nonempty text then text else lit "TypeError" in
  process_line line ss =
    record_error
      (JStr (lit "stream_parse_error: "
             ++ shown (wording (PropertyOfNullish JNull (lit "error"))))) ss
  /\ process_final line ss =
     record_error
       (JStr (lit "stream_parse_error(final): "
              ++ shown (wording (PropertyOfNullish JNull (lit "type"))))) ss.
Proof.
  intros Hn Hd shown. unfold process_line, process_final.
  rewrite Hn, Hd. cbn [negb bind handle_event handle_final get nullish].
  unfold parseMsg, finalParseMsg. rewrite !describe_raise.
  split; reflexivity.
Qed.

Lemma null_line_is_a_parse_error_witness :
  process_line (lit "null") (Live idle) =
    Live (mkStore false
            (JStr (lit "stream_parse_error: Cannot read properties of null (reading 'error')"))
            (Some (set_streamError
                     (JStr (lit "stream_parse_error: Cannot read properties of null (reading 'error')"))
                     (spread None))))
  /\ process_final (lit "null") (Live idle) =
     Live (mkStore false
             (JStr (lit "stream_parse_error(final): Cannot read properties of null (reading 'type')"))
             (Some (set_streamError
                      (JStr (lit "stream_parse_error(final): Cannot read properties of null (reading 'type')"))
                      (spread None)))).
Proof.
  destruct (null_line_is_a_parse_error (lit "null") (Live idle)) as [Hloop Hflush].
  - vm_compute. reflexivity.
  - vm_compute. reflexivity.
  - rewrite Hloop, Hflush. split; vm_compute; reflexivity.
Defined.

(** ** The status and load callbacks *)

Lemma get_not_nullish {engine : Engine} data k :
  nullish data = false -> get data k = Ok (prop data (lit k)).
Proof. unfold get. now intros ->. Qed.

Lemma get_nullish {engine : Engine} data k :
  nullish data = true ->
  get data k = Throw (raise (PropertyOfNullish data (lit k))).
Proof. unfold get. now intros ->. Qed.

(** X16.  refreshStatus touches neither the query nor numDocs and
    always ends with loading false.  It changes isResourcesLoaded only
    when the call resolves with data: then the flag becomes
    data.resources_loaded - undefined, so not loaded, when the key is
    missing - and the error is cleared.  A rejected call keeps the flag
    as it was and surfaces the detail of the server's answer, or else
    the message of the error; a call that resolves without data keeps
    the flag and surfaces the engine's TypeError message for reading
    resources_loaded of null or undefined. *)
Theorem refreshStatus_outcome {engine : Engine}
        (axios_get : jsstring -> AxiosError + jsval)
        (s : Store) (flag n : jsval) :
  exists err,
    Provider.refreshStatus axios_get (Provider.mk (Live s) flag n) =
    Provider.mk (Live (mkStore false err (currentQuery s)))
      (match axios_get (lit "/api/status") with
       | inr data => if nullish data then flag
                     else prop data (lit "resources_loaded")
       | inl _ => flag
       end) n
    /\ match axios_get (lit "/api/status") with
       | inr data =>
           if nullish data
           then err = JStr (wording (PropertyOfNullish data
                                       (lit "resources_loaded")))
           else err = JNull
       | inl e => err = js_or (match response_data e with
                               | Some d => if nullish d then JUndefined
                                           else prop d (lit "detail")
                               | None => JUndefined
                               end) (JStr (message e))
       end.
Proof.
  unfold Provider.refreshStatus.
  destruct (axios_get (lit "/api/status")) as [e|data].
  - eexists. split; reflexivity.
  - destruct (nullish data) eqn:Hn.
    + rewrite (get_nullish data _ Hn). eexists. split; reflexivity.
    + rewrite (get_not_nullish data _ Hn). eexists. split; reflexivity.
Qed.

(** X17.  After a status call that resolved with data, submitQuery goes
    to the network exactly when data.resources_loaded is truthy: it then
    sends one request with the question and the current numDocs;
    otherwise - the key false or missing, even if the resources were
    loaded before - it sends none. *)
Theorem status_gates_the_query {engine : Engine}
        (axios_get : jsstring -> AxiosError + jsval)
        (fetch : Request -> js_error + Response)
        (rendered : option QueryResult) (asked : jsval)
        (s : Store) (flag n data : jsval) :
  axios_get (lit "/api/status") = inr data ->
  nullish data = false ->
  requests (fst (Provider.submit rendered fetch asked
                   (Provider.refreshStatus axios_get
                      (Provider.mk (Live s) flag n)))) =
  if truthy (prop data (lit "resources_loaded"))
  then [query_request asked n] else [].
Proof.
  intros Ha Hn. unfold Provider.refreshStatus. rewrite Ha.
  rewrite (get_not_nullish data _ Hn).
  unfold Provider.submit, submitQuery. cbn -[lit query_request consume begin_query].
  destruct (truthy (prop data (lit "resources_loaded")));
    cbn -[lit query_request consume begin_query]; [|reflexivity].
  destruct (fetch (query_request asked n)) as [e|response]; [reflexivity|].
  destruct (consume response _) as [ss1 [e|]]; reflexivity.
Qed.

Lemma status_gates_the_query_witness :
  requests (fst (Provider.submit None (fun _ => inr (response_of line_timeout))
                   (JStr (lit "q"))
                   (Provider.refreshStatus
                      (fun _ => inr (JObj [(lit "status", JStr (lit "ok"))]))
                      (Provider.mk (Live idle) (JBool true) (JInt 20))))) = [].
Proof.
  apply (status_gates_the_query
           (fun _ => inr (JObj [(lit "status", JStr (lit "ok"))]))
           (fun _ => inr (response_of line_timeout)) None (JStr (lit "q"))
           idle (JBool true) (JInt 20)
           (JObj [(lit "status", JStr (lit "ok"))])).
  - reflexivity.
  - reflexivity.
Defined.

Lemma loadResources_parts {engine : Engine}
      (axios_post : jsstring -> jsval -> AxiosError + jsval)
      (apiKey : jsval) (s : Store) (flag n data : jsval) :
  axios_post (lit "/api/load-resources") (Provider.load_payload apiKey) = inr data ->
  nullish data = false ->
  Provider.loadResources axios_post apiKey (Provider.mk (Live s) flag n) =
  (data,
   Provider.mk
     (Live (mkStore false
              (if truthy (prop data (lit "success")) then JNull
               else prop data (lit "message"))
              (currentQuery s)))
     (prop data (lit "success")) n).
Proof.
  intros Ha Hn. unfold Provider.loadResources. rewrite Ha.
  rewrite (get_not_nullish data _ Hn). cbn -[lit].
  destruct (truthy (prop data (lit "success"))); reflexivity.
Qed.

(** X18.  loadResources returns the data of the response when the call
    resolves with data, and null when it is rejected or resolves without
    data.  With data, isResourcesLoaded becomes data.success and the
    error is data.message when success is falsy, null otherwise; loading
    ends false, the query and numDocs are not touched. *)
Theorem loadResources_outcome {engine : Engine}
        (axios_post : jsstring -> jsval -> AxiosError + jsval)
        (apiKey : jsval) (s : Store) (flag n data : jsval) :
  axios_post (lit "/api/load-resources") (Provider.load_payload apiKey) = inr data ->
  nullish data = false ->
  Provider.loadResources axios_post apiKey (Provider.mk (Live s) flag n) =
  (data,
   Provider.mk
     (Live (mkStore false
              (if truthy (prop data (lit "success")) then JNull
               else prop data (lit "message"))
              (currentQuery s)))
     (prop data (lit "success")) n).
Proof.
  intros Ha Hn. now apply loadResources_parts.
Qed.

Lemma loadResources_outcome_witness :
  Provider.loadResources
    (fun _ _ => inr (JObj [(lit "success", JBool false);
                           (lit "message", JStr (lit "bad key"))]))
    (JStr (lit "k")) Provider.initial =
  (JObj [(lit "success", JBool false); (lit "message", JStr (lit "bad key"))],
   Provider.mk (Live (mkStore false (JStr (lit "bad key")) None))
               (JBool false) (JInt 20)).
Proof.
  apply (loadResources_outcome
           (fun _ _ => inr (JObj [(lit "success", JBool false);
                                  (lit "message", JStr (lit "bad key"))]))
           (JStr (lit "k")) (mkStore false JNull None) (JBool false) (JInt 20)).
  - reflexivity.
  - reflexivity.
Defined.

(** X19.  A rejected loadResources returns null, keeps
    isResourcesLoaded and the query as they were, ends with loading
    false, and surfaces the detail of the server's answer when there is
    a truthy one, the message of the error otherwise. *)
Theorem loadResources_rejected {engine : Engine}
        (axios_post : jsstring -> jsval -> AxiosError + jsval)
        (apiKey : jsval) (s : Store) (flag n : jsval) (e : AxiosError) :
  axios_post (lit "/api/load-resources") (Provider.load_payload apiKey) = inl e ->
  Provider.loadResources axios_post apiKey (Provider.mk (Live s) flag n) =
  (JNull,
   Provider.mk
     (Live (mkStore false
              (match response_data e with
               | Some d =>
                   if truthy (prop d (lit "detail")) then prop d (lit "detail")
                   else JStr (message e)
               | None => JStr (message e)
               end)
              (currentQuery s)))
     flag n).
Proof.
  intros Ha. unfold Provider.loadResources. rewrite Ha.
  destruct e as [msg [d|]]; [|reflexivity].
  unfold Provider.failed, errorMessage, js_or. cbn -[lit truthy prop].
  destruct d; cbn -[lit]; reflexivity.
Qed.

Lemma loadResources_rejected_witness :
  Provider.loadResources
    (fun _ _ => inl (mkAxiosError (lit "Request failed with status code 401")
                       (Some (JObj [(lit "detail", JStr (lit "Invalid API key"))]))))
    JUndefined (Provider.mk (Live idle) (JBool true) (JInt 20)) =
  (JNull,
   Provider.mk (Live (mkStore false (JStr (lit "Invalid API key")) None))
               (JBool true) (JInt 20)).
Proof.
  apply (loadResources_rejected
           (fun _ _ => inl (mkAxiosError (lit "Request failed with status code 401")
                              (Some (JObj [(lit "detail", JStr (lit "Invalid API key"))]))))
           JUndefined idle (JBool true) (JInt 20)
           (mkAxiosError (lit "Request failed with status code 401")
              (Some (JObj [(lit "detail", JStr (lit "Invalid API key"))])))).
  reflexivity.
Defined.

(** X20.  From the initial state of the provider: a query is refused
    without any request; once loadResources has resolved with a truthy
    success, a query sends one request with num_docs 20; after
    updateNumDocs it sends the new value. *)
Theorem provider_session {engine : Engine}
        (axios_post : jsstring -> jsval -> AxiosError + jsval)
        (fetch : Request -> js_error + Response)
        (rendered : option QueryResult) (apiKey asked data num : jsval) :
  axios_post (lit "/api/load-resources") (Provider.load_payload apiKey) = inr data ->
  truthy (prop data (lit "success")) = true ->
  let ready := snd (Provider.loadResources axios_post apiKey Provider.initial) in
  requests (fst (Provider.submit rendered fetch asked Provider.initial)) = []
  /\ requests (fst (Provider.submit rendered fetch asked ready)) =
     [query_request asked (JInt 20)]
  /\ requests (fst (Provider.submit rendered fetch asked
                      (Provider.updateNumDocs num ready))) =
     [query_request asked num].
Proof.
  intros Ha Hs ready.
  assert (Hn : nullish data = false).
  { destruct data; try reflexivity; discriminate. }
  assert (Hready : ready = Provider.mk (Live (mkStore false JNull None))
                                       (prop data (lit "success")) (JInt 20)).
  { unfold ready, Provider.initial.
    rewrite (loadResources_parts axios_post apiKey _ _ _ data Ha Hn).
    cbn -[lit]. now rewrite Hs. }
  split; [reflexivity|].
  rewrite Hready. unfold Provider.submit, Provider.updateNumDocs, submitQuery.
  cbn -[lit query_request consume begin_query]. rewrite Hs.
  cbn -[lit query_request consume begin_query].
  split.
  - destruct (fetch _) as [e|response]; [reflexivity|].
    destruct (consume response _) as [ss1 [e|]]; reflexivity.
  - destruct (fetch _) as [e|response]; [reflexivity|].
    destruct (consume response _) as [ss1 [e|]]; reflexivity.
Qed.

Lemma provider_session_witness :
  requests (fst (Provider.submit None (fun _ => inr (response_of line_timeout))
                   JNull Provider.initial)) = [].
Proof.
  apply (provider_session
           (fun _ _ => inr (JObj [(lit "success", JBool true)]))
           (fun _ => inr (response_of line_timeout)) None
           JNull JNull (JObj [(lit "success", JBool true)]) (JInt 5)).
  - reflexivity.
  - reflexivity.
Defined.

(** ** What the framer hands on *)

Lemma split_segments (sep : N) (s : jsstring) :
  Forall (fun segment => ~ In sep segment) (split sep s).
Proof.
  induction s as [|c s IH]; simpl.
  - constructor; [intros []|constructor].
  - destruct (c =? sep) eqn:E.
    + constructor; [intros []|exact IH].
    + destruct (split sep s) as [|h t]; inversion IH; subst.
      * constructor; [|constructor].
        intros [H|[]]. apply N.eqb_neq in E. congruence.
      * constructor; [|assumption].
        intros [H|H]; [apply N.eqb_neq in E; congruence|contradiction].
Qed.

Lemma for_lines_keep (lines acc : list jsstring) :
  for_lines keep_line lines acc =
  acc ++ filter (fun line => negb (blank line)) lines.
Proof.
  revert acc. unfold for_lines.
  induction lines as [|l lines IH]; intros acc; simpl.
  - now rewrite app_nil_r.
  - rewrite IH. unfold keep_line, blank.
    destruct (negb (nonempty (trim l))); simpl; [reflexivity|].
    now rewrite <- app_assoc.
Qed.

Lemma Forall_removelast {A : Type} (P : A -> Prop) (l : list A) :
  Forall P l -> Forall P (removelast l).
Proof.
  induction 1 as [|x l Hx Hl IH]; simpl; [constructor|].
  destruct l; [constructor|]. constructor; assumption.
Qed.

Lemma Forall_last {A : Type} (P : A -> Prop) (l : list A) (d : A) :
  Forall P l -> P d -> P (last l d).
Proof.
  induction 1 as [|x l Hx Hl IH]; simpl; intros Hd; [exact Hd|].
  destruct l; [exact Hx|]. now apply IH.
Qed.

(** X21.  Every line the framer hands on, the flushed rest included, is
    free of line terminators and is not blank, for any bytes in any
    chunking. *)
Theorem framed_lines_are_single_lines (chunks : list (list byte)) :
  Forall (fun line => ~ In NEWLINE line /\ blank line = false)
         (framed_lines chunks).
Proof.
  unfold framed_lines.
  rewrite (read_loop_chunking keep_line TextDecoder.fresh chunks).
  cbn [read_loop].
  destruct (TextDecoder.decode TextDecoder.fresh (List.concat chunks)) as [d text].
  cbn [app]. rewrite for_lines_keep. cbn [app].
  pose proof (split_segments NEWLINE text) as Hseg.
  assert (Hkept : Forall (fun line => ~ In NEWLINE line /\ blank line = false)
                    (filter (fun line => negb (blank line))
                            (popped (split NEWLINE text)))).
  { apply Forall_forall. intros l Hl. apply filter_In in Hl.
    destruct Hl as [Hin Hb]. split.
    - pose proof (Forall_removelast _ _ Hseg) as Hp.
      rewrite Forall_forall in Hp. now apply Hp.
    - now apply negb_true_iff in Hb. }
  destruct (nonempty (trim (pop_or_empty (split NEWLINE text)))) eqn:Hn;
    [|exact Hkept].
  apply Forall_app. split; [exact Hkept|].
  constructor; [|constructor]. split.
  - unfold pop_or_empty. apply Forall_last; [exact Hseg|]. intros [].
  - unfold blank. now rewrite Hn.
Qed.

(** X22.  Framing inverts joining: the bytes of plain lines, each
    followed by a line feed, and of a plain unterminated rest, cut into
    chunks in any way, are framed into exactly these lines and the rest,
    in order, the blank ones left out. *)
Theorem framing_inverts_joining
        (chunks : list (list byte)) (lines : list jsstring) (rest : jsstring) :
  List.concat chunks = bytes_of (joined lines rest) ->
  Forall plain lines -> plain rest ->
  framed_lines chunks =
  filter (fun line => negb (blank line)) (lines ++ [rest]).
Proof.
  intros Hbytes Hlines Hrest. unfold framed_lines.
  destruct (read_loop_joined keep_line chunks lines rest [] Hbytes Hlines Hrest)
    as [d ->].
  rewrite for_lines_keep. cbn [app].
  rewrite filter_app. cbn [filter]. unfold blank.
  destruct (nonempty (trim rest)); cbn [negb]; [reflexivity|].
  now rewrite app_nil_r.
Qed.

Lemma framing_inverts_joining_witness :
  framed_lines [bytes_of (terminated line_documents ++ [NEWLINE]);
                bytes_of (firstn 7 line_answer);
                bytes_of (skipn 7 line_answer)] =
  filter (fun line => negb (blank line)) ([line_documents; []] ++ [line_answer]).
Proof.
  apply (framing_inverts_joining
           [bytes_of (terminated line_documents ++ [NEWLINE]);
            bytes_of (firstn 7 line_answer);
            bytes_of (skipn 7 line_answer)]
           [line_documents; []] line_answer).
  - vm_compute. reflexivity.
  - repeat constructor; apply plainb_plain; vm_compute; reflexivity.
  - apply plainb_plain. vm_compute. reflexivity.
Defined.
